(** * weather-stealer-usa-3000: the computational core, embedded and verified

    A shallow embedding of [temperature.py], [data_processing.py], the
    input reading, the choice of sources and the query dispatch of
    [weather_stealer_usa_3000.py], and the search address of
    [forward_geocoding.py].

    Numbers.  Python's [int] and [float] values that the program reads from
    JSON are modelled as exact rationals [Q]; every finite double is a
    rational, and the arithmetic is the exact one (no rounding).  The two
    conversions and the heat index are embedded a second time on binary64
    floats (module [Float64]) where a statement is about doubles.  Python's float exponentiation [x ** y] is a builtin of the
    language, not code of the repository: it is a parameter [float_pow].

    Failure.  A raised exception is a value [inl e] of the error monad [py];
    nothing in the modelled functions catches an exception. *)

From Stdlib Require Import ZArith QArith Qabs Lqa Lia List String Ascii Bool.
From Stdlib Require Import Floats Uint63.
Import ListNotations.

Local Open Scope Z_scope.
Local Open Scope Q_scope.
Local Open Scope string_scope.

(** ** Exceptions and the error monad

    The exceptions in play: the built-in ones the code can raise, and
    [NotFoundError], which the specification names and nothing raises. *)

Inductive exn : Type :=
| IndexError
| TypeError
| ValueError
| ZeroDivisionError
| OverflowError
| NotFoundError.

Definition py (A : Type) : Type := (exn + A)%type.

Definition ret {A : Type} (a : A) : py A := inr a.

Definition raise {A : Type} (e : exn) : py A := inl e.

Definition bind {A B : Type} (m : py A) (k : A -> py B) : py B :=
  match m with
  | inl e => inl e
  | inr a => k a
  end.

Notation "x <- m ;; k" := (bind m (fun x => k))
  (at level 61, m at next level, right associativity).
Notation "' p <- m ;; k" := (bind m (fun p => k))
  (at level 61, p pattern, m at next level, right associativity).

(** [l[i]] for a list and an index [i >= 0]. *)
Definition index {A : Type} (l : list A) (i : nat) : py A :=
  match nth_error l i with
  | Some x => ret x
  | None => raise IndexError
  end.

(** [range(length)]: empty when [length <= 0]. *)
Definition range (length : Z) : list nat := seq 0 (Z.to_nat length).

(** [for x in xs: s = body(x, s)], stopping at the first exception. *)
Fixpoint for_each {A S : Type} (xs : list A) (body : A -> S -> py S) (s : S) : py S :=
  match xs with
  | [] => ret s
  | x :: rest => s' <- body x s ;; for_each rest body s'
  end.

(** ** Comparisons of numbers *)

Definition Qlt_bool (x y : Q) : bool := negb (Qle_bool y x).

Definition Qgt_bool (x y : Q) : bool := Qlt_bool y x.

Definition Qge_bool (x y : Q) : bool := Qle_bool y x.

(** ** Strings: [str.split(' ')], [int(s)], [float(s)] *)

(** [s.split(sep)] for a one-character separator: every occurrence splits,
    so consecutive separators give empty fields. *)
Fixpoint split (sep : ascii) (s : string) : list string :=
  match s with
  | EmptyString => [EmptyString]
  | String c rest =>
      if Ascii.eqb c sep then EmptyString :: split sep rest
      else match split sep rest with
           | [] => [String c EmptyString]
           | w :: ws => String c w :: ws
           end
  end.

Definition digit_of (c : ascii) : option Z :=
  let n := Z.of_N (N_of_ascii c) in
  if ((48 <=? n) && (n <=? 57))%Z then Some (n - 48)%Z else None.

(** The longest prefix of decimal digits, most significant first, and the
    rest of the string. *)
Fixpoint span_digits (s : string) : list Z * string :=
  match s with
  | EmptyString => ([], EmptyString)
  | String c rest =>
      match digit_of c with
      | Some d => let '(ds, r) := span_digits rest in (d :: ds, r)
      | None => ([], s)
      end
  end.

Definition digits_value (ds : list Z) : Z :=
  fold_left (fun acc d => (10 * acc + d)%Z) ds 0%Z.

Definition strip_sign (s : string) : Z * string :=
  match s with
  | String "-" rest => ((-1)%Z, rest)
  | String "+" rest => (1%Z, rest)
  | _ => (1%Z, s)
  end.

(** The integer written as [[+-]digits]. *)
Definition parse_int (s : string) : option Z :=
  let '(sg, body) := strip_sign s in
  match span_digits body with
  | (d :: ds, EmptyString) => Some (sg * digits_value (d :: ds))%Z
  | _ => None
  end.

(** [int(s)] on the decimal layout [[+-]digits].  Python also accepts
    surrounding blanks and underscores between digits; those layouts are not
    modelled and no statement below depends on the answer given for them. *)
Definition int_ (s : string) : py Z :=
  match parse_int s with
  | Some n => ret n
  | None => raise ValueError
  end.

(** The number written as [[+-]digits[.digits]] or [[+-].digits]. *)
Definition parse_float (s : string) : option Q :=
  let '(sg, body) := strip_sign s in
  let '(ip, r) := span_digits body in
  match r with
  | EmptyString =>
      match ip with
      | [] => None
      | _ => Some (inject_Z (sg * digits_value ip))
      end
  | String "." r' =>
      let '(fp, r'') := span_digits r' in
      match r'', (ip ++ fp)%list with
      | EmptyString, _ :: _ =>
          Some (inject_Z sg *
                (inject_Z (digits_value ip) +
                 inject_Z (digits_value fp) / inject_Z (10 ^ Z.of_nat (List.length fp))))
      | _, _ => None
      end
  | _ => None
  end.

(** [float(s)] on the decimal layouts above.  Exponents, [inf], [nan],
    blanks and underscores are not modelled and no statement below depends
    on the answer given for them. *)
Definition float_of_string (s : string) : py Q :=
  match parse_float s with
  | Some q => ret q
  | None => raise ValueError
  end.

(** A JSON scalar that is a number or a string (Nominatim sends [lat] and
    [lon] as strings). *)
Inductive scalar : Type :=
| JNumber (q : Q)
| JString (s : string).

(** [float(x)]. *)
Definition float_ (x : scalar) : py Q :=
  match x with
  | JNumber q => ret q
  | JString s => float_of_string s
  end.

(** ** temperature.py *)

Definition celsius (temp_in_fahr : Q) : Q :=
  (temp_in_fahr - 32) * (5 / 9).

Definition fahrenheit (temp_in_cels : Q) : Q :=
  (temp_in_cels * (9 / 5)) + 32.

Definition calc_heat_index (t h : Q) : Q :=
  let heat_index_parts :=
    [ -42.379;
      2.04901523 * t;
      10.14333127 * h;
      -0.22475541 * t * h;
      -0.00683783 * t * t;
      -0.05481717 * h * h;
      0.00122874 * t * t * h;
      0.00085282 * t * h * h;
      -0.00000199 * t * t * h * h ] in
  fold_left (fun heat_index arg => heat_index + arg) heat_index_parts 0.

Section Exponentiation.

(** Python's [x ** y] on floats. *)
Variable float_pow : Q -> Q -> Q.

Definition calc_wind_chill (t w : Q) : Q :=
  let wind_chill_parts :=
    [ 35.74;
      0.6215 * t;
      -35.75 * (float_pow w 0.16);
      0.4275 * t * (float_pow w 0.16) ] in
  fold_left (fun wind_chill arg => wind_chill + arg) wind_chill_parts 0.

End Exponentiation.

(** The two conversions on IEEE binary64, as CPython evaluates them. *)
Module Float64.

Local Open Scope float_scope.

Definition celsius (temp_in_fahr : float) : float :=
  (temp_in_fahr - 32) * (5 / 9).

Definition fahrenheit (temp_in_cels : float) : float :=
  (temp_in_cels * (9 / 5)) + 32.

#[warnings="-inexact-float"]
Definition calc_heat_index (t h : float) : float :=
  let heat_index_parts :=
    [ -42.379;
      2.04901523 * t;
      10.14333127 * h;
      -0.22475541 * t * h;
      -0.00683783 * t * t;
      -0.05481717 * h * h;
      0.00122874 * t * t * h;
      0.00085282 * t * h * h;
      -0.00000199 * t * t * h * h ] in
  fold_left (fun heat_index arg => heat_index + arg) heat_index_parts 0.

(** The double of a whole number of small size. *)
Definition of_Z (z : Z) : float :=
  if (z <? 0)%Z then - of_uint63 (Uint63.of_Z (- z)) else of_uint63 (Uint63.of_Z z).

(** [|a - b| <= tol]. *)
Definition close (a b tol : float) : bool := abs (a - b) <=? tol.

(** The whole degrees from -500 to 500. *)
Definition whole_degrees : list Z :=
  map (fun n => (Z.of_nat n - 500)%Z) (seq 0 1001).

End Float64.

(** ** The forecast document *)

Record period : Type := Period {
  startTime : string;
  temperature : Q;
  relativeHumidity : Q;          (* ['relativeHumidity']['value'] *)
  windSpeed : string;
  probabilityOfPrecipitation : Q (* ['probabilityOfPrecipitation']['value'] *)
}.

(** A polygon vertex of the GeoJSON geometry: (longitude, latitude). *)
Definition coordinate : Type := (Q * Q)%type.

Record forecast : Type := Forecast {
  periods : list period;             (* ['properties']['periods'] *)
  coordinates : list (list coordinate) (* ['geometry']['coordinates'] *)
}.

(** ** data_processing.py: the running extremum *)

Definition _process_curr_item (curr : Q) (target : option Q)
    (curr_datetime : string) (target_datetime : option string) (limit : string)
    : option Q * option string :=
  match target with
  | None => (Some curr, Some curr_datetime)
  | Some t =>
      if (String.eqb limit "MAX" && Qgt_bool curr t)
         || (String.eqb limit "MIN" && Qlt_bool curr t)
      then (Some curr, Some curr_datetime)
      else (target, target_datetime)
  end.

Definition _simplify_wind_speed (wind_speed_data : string) : py Q :=
  speed <- index (split " " wind_speed_data) 0 ;;
  float_of_string speed.

(** ** The standard library's [datetime], as far as [_datetime_to_utc] uses it *)

Record datetime : Type := DateTime {
  year : Z;
  month : Z;
  day : Z;
  hour : Z;
  minute : Z;
  second : Z;
  utcoffset : Z (* seconds east of UTC *)
}.

Definition is_leap (y : Z) : bool :=
  ((y mod 4 =? 0) && (negb (y mod 100 =? 0) || (y mod 400 =? 0)))%Z.

Definition days_in_month (y m : Z) : Z :=
  match m with
  | 2 => if is_leap y then 29 else 28
  | 4 | 6 | 9 | 11 => 30
  | _ => 31
  end%Z.

Definition two_digits (a b : ascii) : option Z :=
  match digit_of a, digit_of b with
  | Some x, Some y => Some (10 * x + y)%Z
  | _, _ => None
  end.

Definition four_digits (a b c d : ascii) : option Z :=
  match two_digits a b, two_digits c d with
  | Some x, Some y => Some (100 * x + y)%Z
  | _, _ => None
  end.

Definition valid_datetime (dt : datetime) : bool :=
  ((1 <=? year dt) && (year dt <=? 9999)
   && (1 <=? month dt) && (month dt <=? 12)
   && (1 <=? day dt) && (day dt <=? days_in_month (year dt) (month dt))
   && (0 <=? hour dt) && (hour dt <=? 23)
   && (0 <=? minute dt) && (minute dt <=? 59)
   && (0 <=? second dt) && (second dt <=? 59)
   && (-86400 <? utcoffset dt) && (utcoffset dt <? 86400))%Z.

(** The fields of a timestamp written [YYYY-MM-DD?HH:MM:SS+HH:MM] (any one
    character between date and time, sign [+] or [-]). *)
Definition iso_fields (date_string : string) : option datetime :=
  match list_ascii_of_string date_string with
  | [y1; y2; y3; y4; "-"; m1; m2; "-"; d1; d2; _;
     h1; h2; ":"; i1; i2; ":"; s1; s2; sg; o1; o2; ":"; p1; p2]%char =>
      match four_digits y1 y2 y3 y4, two_digits m1 m2, two_digits d1 d2,
            two_digits h1 h2, two_digits i1 i2, two_digits s1 s2,
            two_digits o1 o2, two_digits p1 p2 with
      | Some y, Some m, Some d, Some h, Some i, Some s, Some oh, Some om =>
          let off := (oh * 3600 + om * 60)%Z in
          if ((oh <=? 23) && (om <=? 59))%Z then
            if Ascii.eqb sg "+" then Some (DateTime y m d h i s off)
            else if Ascii.eqb sg "-" then Some (DateTime y m d h i s (- off)%Z)
            else None
          else None
      | _, _, _, _, _, _, _, _ => None
      end
  | _ => None
  end.

(** [datetime.fromisoformat(s)] on the layout the forecast uses.  Python
    accepts further layouts (no offset, fractional seconds); those are not
    modelled and no statement below depends on the answer given for them. *)
Definition fromisoformat (date_string : string) : py datetime :=
  match iso_fields date_string with
  | Some dt => if valid_datetime dt then ret dt else raise ValueError
  | None => raise ValueError
  end.

Definition prev_day (y m d : Z) : Z * Z * Z :=
  if (1 <? d)%Z then (y, m, d - 1)%Z
  else if (1 <? m)%Z then (y, m - 1, days_in_month y (m - 1))%Z
  else (y - 1, 12, 31)%Z.

Definition next_day (y m d : Z) : Z * Z * Z :=
  if (d <? days_in_month y m)%Z then (y, m, d + 1)%Z
  else if (m <? 12)%Z then (y, m + 1, 1)%Z
  else (y + 1, 1, 1)%Z.

(** [dt.astimezone(datetime.timezone.utc)] for an aware [dt]: the offset is
    less than a day in absolute value, so the UTC date is the same day, the
    day before or the day after.  A date outside the years 1..9999 raises
    [OverflowError]. *)
Definition astimezone_utc (dt : datetime) : py datetime :=
  let secs := (hour dt * 3600 + minute dt * 60 + second dt - utcoffset dt)%Z in
  let '(y, m, d, secs') :=
    if (secs <? 0)%Z then (prev_day (year dt) (month dt) (day dt), secs + 86400)%Z
    else if (86400 <=? secs)%Z then (next_day (year dt) (month dt) (day dt), secs - 86400)%Z
    else (year dt, month dt, day dt, secs) in
  if ((1 <=? y) && (y <=? 9999))%Z
  then ret (DateTime y m d (secs' / 3600) (secs' mod 3600 / 60) (secs' mod 60) 0)%Z
  else raise OverflowError.

Definition digit_char (d : Z) : ascii := ascii_of_N (Z.to_N (48 + d mod 10)).

Definition pad2 (n : Z) : string :=
  String (digit_char (n / 10)) (String (digit_char n) EmptyString).

Definition pad4 (n : Z) : string :=
  String (digit_char (n / 1000)) (String (digit_char (n / 100))
    (String (digit_char (n / 10)) (String (digit_char n) EmptyString))).

(** [dt.strftime('%Y-%m-%dT%H:%M:%SZ')].  [%Y] is written with four digits;
    for years below 1000 the C library decides the padding, and the
    statements below keep to years from 1000 on. *)
Definition strftime (dt : datetime) : string :=
  pad4 (year dt) ++ "-" ++ pad2 (month dt) ++ "-" ++ pad2 (day dt) ++ "T"
  ++ pad2 (hour dt) ++ ":" ++ pad2 (minute dt) ++ ":" ++ pad2 (second dt) ++ "Z".

Definition _datetime_to_utc (date_and_time : option string) : py string :=
  match date_and_time with
  | None => raise TypeError
  | Some s =>
      datetime_obj <- fromisoformat s ;;
      utc <- astimezone_utc datetime_obj ;;
      ret (strftime utc)
  end.

(** ** Formatting a number with [:.4f] *)

(** Round a non-negative rational to the nearest integer, ties to even. *)
Definition round_half_even (x : Q) : Z :=
  let n := Qnum x in
  let d := Zpos (Qden x) in
  let f := (n / d)%Z in
  let r := (n mod d)%Z in
  match (2 * r ?= d)%Z with
  | Lt => f
  | Gt => (f + 1)%Z
  | Eq => if Z.even f then f else (f + 1)%Z
  end.

(** The decimal digits of [n >= 0], most significant first; [fuel] bounds
    their number. *)
Fixpoint digits_of (fuel : nat) (n : Z) : list Z :=
  match fuel with
  | O => []
  | S fuel' =>
      if (n <? 10)%Z then [n]
      else (digits_of fuel' (n / 10) ++ [n mod 10])%list
  end.

Fixpoint string_of_digits (ds : list Z) : string :=
  match ds with
  | [] => EmptyString
  | d :: rest => String (digit_char d) (string_of_digits rest)
  end.

(** [str(n)] for an integer [n >= 0]; a number has at most one decimal
    digit per binary digit, which is fuel enough ([digits_of_value]). *)
Definition string_of_Z (n : Z) : string :=
  string_of_digits (digits_of (S (Z.to_nat (Z.log2 n))) n).

(** [format(x, '.4f')]: sign, integer part, a point, four digits; the value
    is rounded to the nearest multiple of 1/10000, ties to even.  [None]
    has no such format. *)
Definition format_4f (x : option Q) : py string :=
  match x with
  | None => raise TypeError
  | Some v =>
      let n := round_half_even (Qabs v * 10000) in
      let sign := if Qlt_bool v 0 then "-" else "" in
      ret (sign ++ string_of_Z (n / 10000) ++ "." ++ pad4 (n mod 10000))
  end.

(** ** data_processing.py: the five queries

    Each query is the loop of the source followed by the formatting of its
    [return]; the loop is named [<query>_loop] so that statements can speak
    of the pair it ends with. *)

Definition air_temperature_loop (data : forecast) (scale : string) (length : Z)
    (limit : string) : py (option Q * option string) :=
  let periods := periods data in
  for_each (range length) (fun i '(target_temp, target_datetime) =>
    p <- index periods i ;;
    let curr_datetime := startTime p in
    let curr_temp := temperature p in
    let curr_temp := if String.eqb scale "C" then celsius curr_temp else curr_temp in
    ret (_process_curr_item curr_temp target_temp curr_datetime target_datetime limit))
  (None, None).

Definition air_temperature (data : forecast) (scale : string) (length : Z)
    (limit : string) : py string :=
  '(target_temp, target_datetime) <- air_temperature_loop data scale length limit ;;
  when <- _datetime_to_utc target_datetime ;;
  value <- format_4f target_temp ;;
  ret (when ++ " " ++ value).

Section FeelsLike.

Variable float_pow : Q -> Q -> Q.

(** The body of the loop of [feels_like_temperature] up to the call of
    [_process_curr_item]: the value it passes on for one period. *)
Definition feels_like_curr_temp (scale : string) (p : period) : py Q :=
  let curr_temp := temperature p in
  let curr_humidity := relativeHumidity p in
  curr_wind <- _simplify_wind_speed (windSpeed p) ;;
  let curr_temp :=
    if Qge_bool curr_temp 68 then calc_heat_index curr_temp curr_humidity
    else if Qle_bool curr_temp 50 && Qgt_bool curr_wind 3
         then calc_wind_chill float_pow curr_temp curr_wind
         else curr_temp in
  let curr_temp := if String.eqb scale "C" then celsius curr_temp else curr_temp in
  ret curr_temp.

Definition feels_like_temperature_loop (data : forecast) (scale : string) (length : Z)
    (limit : string) : py (option Q * option string) :=
  let periods := periods data in
  for_each (range length) (fun i '(target_temp, target_datetime) =>
    p <- index periods i ;;
    let curr_datetime := startTime p in
    curr_temp <- feels_like_curr_temp scale p ;;
    ret (_process_curr_item curr_temp target_temp curr_datetime target_datetime limit))
  (None, None).

Definition feels_like_temperature (data : forecast) (scale : string) (length : Z)
    (limit : string) : py string :=
  '(target_temp, target_datetime) <- feels_like_temperature_loop data scale length limit ;;
  when <- _datetime_to_utc target_datetime ;;
  value <- format_4f target_temp ;;
  ret (when ++ " " ++ value).

End FeelsLike.

Definition humidity_loop (data : forecast) (length : Z) (limit : string)
    : py (option Q * option string) :=
  let periods := periods data in
  for_each (range length) (fun i '(target_humidity, target_datetime) =>
    p <- index periods i ;;
    let curr_datetime := startTime p in
    let curr_humidity := relativeHumidity p in
    ret (_process_curr_item curr_humidity target_humidity curr_datetime target_datetime limit))
  (None, None).

Definition humidity (data : forecast) (length : Z) (limit : string) : py string :=
  '(target_humidity, target_datetime) <- humidity_loop data length limit ;;
  when <- _datetime_to_utc target_datetime ;;
  value <- format_4f target_humidity ;;
  ret (when ++ " " ++ value ++ "%").

Definition wind_speed_loop (data : forecast) (length : Z) (limit : string)
    : py (option Q * option string) :=
  let periods := periods data in
  for_each (range length) (fun i '(target_wind, target_datetime) =>
    p <- index periods i ;;
    let curr_datetime := startTime p in
    curr_wind <- _simplify_wind_speed (windSpeed p) ;;
    ret (_process_curr_item curr_wind target_wind curr_datetime target_datetime limit))
  (None, None).

Definition wind_speed (data : forecast) (length : Z) (limit : string) : py string :=
  '(target_wind, target_datetime) <- wind_speed_loop data length limit ;;
  when <- _datetime_to_utc target_datetime ;;
  value <- format_4f target_wind ;;
  ret (when ++ " " ++ value).

Definition chance_of_precipitation_loop (data : forecast) (length : Z) (limit : string)
    : py (option Q * option string) :=
  let periods := periods data in
  for_each (range length) (fun i '(target_rain_chance, target_datetime) =>
    p <- index periods i ;;
    let curr_datetime := startTime p in
    let curr_rain_chance := probabilityOfPrecipitation p in
    ret (_process_curr_item curr_rain_chance target_rain_chance curr_datetime
           target_datetime limit))
  (None, None).

Definition chance_of_precipitation (data : forecast) (length : Z) (limit : string)
    : py string :=
  '(target_rain_chance, target_datetime) <- chance_of_precipitation_loop data length limit ;;
  when <- _datetime_to_utc target_datetime ;;
  value <- format_4f target_rain_chance ;;
  ret (when ++ " " ++ value ++ "%").

(** ** data_processing.py: locations *)

(** One candidate of a forward geocoding answer. *)
Record place : Type := Place {
  lat : scalar;
  lon : scalar;
  display_name : string
}.

Definition get_latitude_and_longitude (geocoding_data : list place) : py (Q * Q) :=
  first <- index geocoding_data 0 ;;
  let latitude := lat first in
  first' <- index geocoding_data 0 ;;
  let longitude := lon first' in
  la <- float_ latitude ;;
  lo <- float_ longitude ;;
  ret (la, lo).

(** Equality of two tuples of numbers: componentwise, by value. *)
Definition coord_eqb (a b : coordinate) : bool :=
  Qeq_bool (fst a) (fst b) && Qeq_bool (snd a) (snd b).

(** [s.add(c)] on a set kept as the list of its members, oldest first. *)
Definition set_add (c : coordinate) (s : list coordinate) : list coordinate :=
  if existsb (coord_eqb c) s then s else (s ++ [c])%list.

(** The set is iterated in the order its members were added; Python leaves
    the order open, and the statement on this function holds for the
    members taken in any order. *)
Definition determine_forecast_location (forecast_data : forecast) : py (Q * Q) :=
  polygon_coords <- index (coordinates forecast_data) 0 ;;
  let unique_coords := fold_left (fun s c => set_add c s) polygon_coords [] in
  let '(lat_sum, lon_sum) :=
    fold_left (fun '(lat_sum, lon_sum) c => (lat_sum + snd c, lon_sum + fst c))
      unique_coords (0, 0) in
  let n := List.length unique_coords in
  match n with
  | O => raise ZeroDivisionError
  | _ =>
      let avg_lat := lat_sum / inject_Z (Z.of_nat n) in
      let avg_lon := lon_sum / inject_Z (Z.of_nat n) in
      ret (avg_lat, avg_lon)
  end.

(** ** weather_stealer_usa_3000.py: the query dispatch *)

Definition _available_num_of_time_periods (forecast_data : forecast) : Z :=
  Z.of_nat (List.length (periods forecast_data)).

Section Queries.

Variable float_pow : Q -> Q -> Q.

(** The body of the loop of [_get_query_results], after [query.split(' ')]. *)
Definition _query (forecast_data : forecast) (args : list string)
    (query_results : list string) : py (list string) :=
  arg0 <- index args 0 ;;
  if String.eqb arg0 "TEMPERATURE" then
    query_type <- index args 1 ;;
    scale <- index args 2 ;;
    arg3 <- index args 3 ;;
    length <- int_ arg3 ;;
    limit <- index args 4 ;;
    let length := Z.min length (_available_num_of_time_periods forecast_data) in
    if String.eqb query_type "AIR" then
      r <- air_temperature forecast_data scale length limit ;;
      ret (query_results ++ [r])%list
    else if String.eqb query_type "FEELS" then
      r <- feels_like_temperature float_pow forecast_data scale length limit ;;
      ret (query_results ++ [r])%list
    else ret query_results
  else
    let query_type := arg0 in
    arg1 <- index args 1 ;;
    length <- int_ arg1 ;;
    limit <- index args 2 ;;
    let length := Z.min length (_available_num_of_time_periods forecast_data) in
    if String.eqb query_type "HUMIDITY" then
      r <- humidity forecast_data length limit ;;
      ret (query_results ++ [r])%list
    else if String.eqb query_type "WIND" then
      r <- wind_speed forecast_data length limit ;;
      ret (query_results ++ [r])%list
    else if String.eqb query_type "PRECIPITATION" then
      r <- chance_of_precipitation forecast_data length limit ;;
      ret (query_results ++ [r])%list
    else ret query_results.

Definition _get_query_results (queries : list string) (forecast_data : forecast)
    : py (list string) :=
  for_each queries (fun query query_results =>
    _query forecast_data (split " " query) query_results) [].

End Queries.

(** ** weather_stealer_usa_3000.py: reading the input and choosing the sources

    The console is the list of lines still to be read and the lines printed
    so far.  [input()] on an exhausted console raises [EOFError], which
    nothing catches: a read that fails is [None]. *)

Record console : Type := Console {
  stdin : list string;
  stdout : list string
}.

Definition input (c : console) : option (string * console) :=
  match stdin c with
  | [] => None
  | line :: rest => Some (line, Console rest (stdout c))
  end.

Definition print (line : string) (c : console) : console :=
  Console (stdin c) (stdout c ++ [line]).

(** The [while True] loop of [_get_query_input] on the lines still to be
    read: the queries gathered and the lines left. *)
Fixpoint read_queries (lines : list string) (weather_queries : list string)
    : option (list string * list string) :=
  match lines with
  | [] => None
  | query :: rest =>
      if String.eqb query "NO MORE QUERIES" then Some (weather_queries, rest)
      else read_queries rest (weather_queries ++ [query])
  end.

Definition _get_query_input (c : console)
    : option ((string * string * list string * string) * console) :=
  match input c with
  | None => None
  | Some (target, c1) =>
      match input c1 with
      | None => None
      | Some (weather, c2) =>
          match read_queries (stdin c2) [] with
          | None => None
          | Some (weather_queries, rest) =>
              match input (Console rest (stdout c2)) with
              | None => None
              | Some (reverse, c3) =>
                  Some ((target, weather, weather_queries, reverse), print "" c3)
              end
          end
      end
  end.

(** [s.split(sep, maxsplit)] for a one-character separator: at most
    [maxsplit] splits, the rest of the text stays whole in the last field. *)
Fixpoint split_max (sep : ascii) (maxsplit : nat) (s : string) : list string :=
  match s with
  | EmptyString => [EmptyString]
  | String c rest =>
      match maxsplit with
      | O => [s]
      | S k =>
          if Ascii.eqb c sep then EmptyString :: split_max sep k rest
          else match split_max sep maxsplit rest with
               | [] => [String c EmptyString]
               | w :: ws => String c w :: ws
               end
      end
  end.

(** [urllib.parse.quote_plus] as [urlencode] applies it to a text, byte by
    byte of its UTF-8 form: letters, digits and [_.-~] stay, a blank
    becomes [+], any other byte becomes [%XX] in upper-case hexadecimal. *)
Definition always_safe (c : ascii) : bool :=
  let n := N_of_ascii c in
  ((65 <=? n) && (n <=? 90) || (97 <=? n) && (n <=? 122) || (48 <=? n) && (n <=? 57)
   || (n =? 95) || (n =? 46) || (n =? 45) || (n =? 126))%N.

Definition hex_char (n : N) : ascii :=
  if (n <? 10)%N then ascii_of_N (48 + n) else ascii_of_N (55 + n).

Fixpoint quote_plus (s : string) : string :=
  match s with
  | EmptyString => EmptyString
  | String c rest =>
      if Ascii.eqb c " " then String "+" (quote_plus rest)
      else if always_safe c then String c (quote_plus rest)
      else String "%" (String (hex_char (N_of_ascii c / 16))
                         (String (hex_char (N_of_ascii c mod 16)) (quote_plus rest)))
  end.

(** forward_geocoding.py *)
Definition NOMINATIM_URL : string := "https://nominatim.openstreetmap.org".

(** [ForwardGeocodingAPI._build_search_url]:
    [urlencode([('q', location), ('format', 'jsonv2')])] after the address
    of the search service. *)
Definition _build_search_url (location : string) : string :=
  NOMINATIM_URL ++ "/search?" ++ ("q=" ++ quote_plus location ++ "&" ++ "format=jsonv2").

(** The objects the three choices build, each by the arguments of its
    constructor; a forward geocoding request also by the address it
    computes.  The addresses of the other two requests print floats and are
    left out. *)
Inductive forward_source : Type :=
| ForwardGeocodingAPI (location url : string)
| ForwardGeocodingFile (path : string).

Inductive weather_source : Type :=
| WeatherForecastAPI (latitude longitude : Q)
| WeatherForecastFile (path : string).

Inductive reverse_source : Type :=
| ReverseGeocodingAPI (latitude longitude : Q)
| ReverseGeocodingFile (path : string).

(** A function that falls off its end returns [None]. *)
Definition _process_target_choice (target_input : string)
    : py (option (forward_source * bool)) :=
  let args := split_max " " 2 target_input in
  arg1 <- index args 1 ;;
  if String.eqb arg1 "NOMINATIM" then
    arg2 <- index args 2 ;;
    ret (Some (ForwardGeocodingAPI arg2 (_build_search_url arg2), true))
  else
    arg1' <- index args 1 ;;
    if String.eqb arg1' "FILE" then
      arg2 <- index args 2 ;;
      ret (Some (ForwardGeocodingFile arg2, false))
    else ret None.

Definition _process_weather_choice (weather_input : string) (target_location : Q * Q)
    : py (option (weather_source * bool)) :=
  let args := split " " weather_input in
  arg1 <- index args 1 ;;
  if String.eqb arg1 "NWS" then
    let '(latitude, longitude) := target_location in
    ret (Some (WeatherForecastAPI latitude longitude, true))
  else
    arg1' <- index args 1 ;;
    if String.eqb arg1' "FILE" then
      arg2 <- index args 2 ;;
      ret (Some (WeatherForecastFile arg2, false))
    else ret None.

Definition _process_reverse_choice (reverse_input : string) (forecast_location : Q * Q)
    : py (option (reverse_source * bool)) :=
  let args := split " " reverse_input in
  arg1 <- index args 1 ;;
  if String.eqb arg1 "NOMINATIM" then
    let '(latitude, longitude) := forecast_location in
    ret (Some (ReverseGeocodingAPI latitude longitude, true))
  else
    arg1' <- index args 1 ;;
    if String.eqb arg1' "FILE" then
      arg2 <- index args 2 ;;
      ret (Some (ReverseGeocodingFile arg2, false))
    else ret None.

(** * Vocabulary of the statements *)

(** The five queries and their loops. *)
Inductive metric : Type :=
| Air (scale : string)
| Feels (scale : string)
| Humidity
| Wind
| Precipitation.

Definition air_curr_temp (scale : string) (p : period) : Q :=
  if String.eqb scale "C" then celsius (temperature p) else temperature p.

Section Metrics.

Variable float_pow : Q -> Q -> Q.

(** The value a query hands to [_process_curr_item] for one period. *)
Definition metric_value (m : metric) (p : period) : py Q :=
  match m with
  | Air scale => ret (air_curr_temp scale p)
  | Feels scale => feels_like_curr_temp float_pow scale p
  | Humidity => ret (relativeHumidity p)
  | Wind => _simplify_wind_speed (windSpeed p)
  | Precipitation => ret (probabilityOfPrecipitation p)
  end.

Definition metric_loop (m : metric) (data : forecast) (length : Z) (limit : string)
    : py (option Q * option string) :=
  match m with
  | Air scale => air_temperature_loop data scale length limit
  | Feels scale => feels_like_temperature_loop float_pow data scale length limit
  | Humidity => humidity_loop data length limit
  | Wind => wind_speed_loop data length limit
  | Precipitation => chance_of_precipitation_loop data length limit
  end.

Definition metric_query (m : metric) (data : forecast) (length : Z) (limit : string)
    : py string :=
  match m with
  | Air scale => air_temperature data scale length limit
  | Feels scale => feels_like_temperature float_pow data scale length limit
  | Humidity => humidity data length limit
  | Wind => wind_speed data length limit
  | Precipitation => chance_of_precipitation data length limit
  end.

End Metrics.

(** The (value, timestamp) pairs of a list of periods, in order; fails as
    the loop does when a value cannot be read. *)
Fixpoint collect (value : period -> py Q) (ps : list period) : py (list (Q * string)) :=
  match ps with
  | [] => ret []
  | p :: rest =>
      v <- value p ;;
      items <- collect value rest ;;
      ret ((v, startTime p) :: items)
  end.

(** The periods a loop of the given length reads. *)
Definition window (data : forecast) (length : Z) : list period :=
  firstn (Z.to_nat length) (periods data).

(** One round of a loop on a pair, and the reducer on a sequence of pairs. *)
Definition step (limit : string) (st : option Q * option string) (x : Q * string)
    : option Q * option string :=
  _process_curr_item (fst x) (fst st) (snd x) (snd st) limit.

Definition scan (limit : string) (items : list (Q * string)) : option Q * option string :=
  fold_left (step limit) items (None, None).

(** Timestamps as instants: the day number of a date as [datetime] counts
    it (1 for 0001-01-01), and the seconds an aware timestamp lies after
    the midnight before that day, in UTC. *)
Definition days_before_year (y : Z) : Z :=
  (let y' := y - 1 in y' * 365 + y' / 4 - y' / 100 + y' / 400)%Z.

Definition days_before_month (y m : Z) : Z :=
  (match m with
   | 1 => 0 | 2 => 31 | 3 => 59 | 4 => 90 | 5 => 120 | 6 => 151
   | 7 => 181 | 8 => 212 | 9 => 243 | 10 => 273 | 11 => 304 | _ => 334
   end + (if (2 <? m) && is_leap y then 1 else 0))%Z.

Definition ymd2ord (y m d : Z) : Z :=
  (days_before_year y + days_before_month y m + d)%Z.

Definition instant (dt : datetime) : Z :=
  (ymd2ord (year dt) (month dt) (day dt) * 86400
   + hour dt * 3600 + minute dt * 60 + second dt - utcoffset dt)%Z.

(** The layouts of the two halves of an answer. *)
Definition is_digit (c : ascii) : bool :=
  match digit_of c with
  | Some _ => true
  | None => false
  end.

(** [YYYY-MM-DDTHH:MM:SSZ]. *)
Definition utc_shape (s : string) : bool :=
  match list_ascii_of_string s with
  | [y1; y2; y3; y4; "-"; m1; m2; "-"; d1; d2; "T";
     h1; h2; ":"; i1; i2; ":"; s1; s2; "Z"]%char =>
      forallb is_digit [y1; y2; y3; y4; m1; m2; d1; d2; h1; h2; i1; i2; s1; s2]
  | _ => false
  end.

(** The timestamp a text of that layout stands for. *)
Definition read_utc (s : string) : option datetime :=
  match list_ascii_of_string s with
  | [y1; y2; y3; y4; "-"; m1; m2; "-"; d1; d2; "T";
     h1; h2; ":"; i1; i2; ":"; s1; s2; "Z"]%char =>
      match four_digits y1 y2 y3 y4, two_digits m1 m2, two_digits d1 d2,
            two_digits h1 h2, two_digits i1 i2, two_digits s1 s2 with
      | Some y, Some m, Some d, Some h, Some i, Some s => Some (DateTime y m d h i s 0)
      | _, _, _, _, _, _ => None
      end
  | _ => None
  end.

(** An optional minus sign, one digit or more, a point, exactly four
    digits. *)
Definition drop_minus (s : string) : string :=
  match s with
  | String "-" r => r
  | _ => s
  end.

Definition fixed4_shape (s : string) : bool :=
  let '(ip, r) := span_digits (drop_minus s) in
  match ip, list_ascii_of_string r with
  | _ :: _, ["."; a; b; c; d]%char => forallb is_digit [a; b; c; d]
  | _, _ => false
  end.

(** The text a query ends with. *)
Definition suffix (m : metric) : string :=
  match m with
  | Humidity | Precipitation => "%"
  | _ => ""
  end.

(** The line a user types for a query. *)
Definition query_text (m : metric) (len limit : string) : string :=
  match m with
  | Air scale => "TEMPERATURE AIR " ++ scale ++ " " ++ len ++ " " ++ limit
  | Feels scale => "TEMPERATURE FEELS " ++ scale ++ " " ++ len ++ " " ++ limit
  | Humidity => "HUMIDITY " ++ len ++ " " ++ limit
  | Wind => "WIND " ++ len ++ " " ++ limit
  | Precipitation => "PRECIPITATION " ++ len ++ " " ++ limit
  end.

Definition scale_of (m : metric) : string :=
  match m with
  | Air scale | Feels scale => scale
  | _ => ""
  end.

Fixpoint no_space (s : string) : bool :=
  match s with
  | EmptyString => true
  | String c rest => negb (Ascii.eqb c " ") && no_space rest
  end.

(** Polygon vertices as a set: equality by value, membership, lists without
    repetition, and the means over a list. *)
Definition coord_eq (a b : coordinate) : Prop :=
  fst a == fst b /\ snd a == snd b.

Definition member (c : coordinate) (l : list coordinate) : Prop :=
  exists c', In c' l /\ coord_eq c c'.

Inductive distinct : list coordinate -> Prop :=
| distinct_nil : distinct []
| distinct_cons (c : coordinate) (l : list coordinate) :
    ~ member c l -> distinct l -> distinct (c :: l).

Definition sum_lat (l : list coordinate) : Q :=
  fold_right (fun c acc => snd c + acc) 0 l.

Definition sum_lon (l : list coordinate) : Q :=
  fold_right (fun c acc => fst c + acc) 0 l.

Definition mean_lat (l : list coordinate) : Q :=
  sum_lat l / inject_Z (Z.of_nat (List.length l)).

Definition mean_lon (l : list coordinate) : Q :=
  sum_lon l / inject_Z (Z.of_nat (List.length l)).

(** The state of a loop in Celsius beside the state of the same loop in
    Fahrenheit. *)
Definition in_celsius (st : option Q * option string) : option Q * option string :=
  (option_map celsius (fst st), snd st).

(** The date and the time of day as [isoformat] writes them, without the
    offset. *)
Definition date_time_text (y m d h i s : Z) : string :=
  pad4 y ++ "-" ++ pad2 m ++ "-" ++ pad2 d ++ "T"
  ++ pad2 h ++ ":" ++ pad2 i ++ ":" ++ pad2 s.

(** The characters of an encoded text. *)
Definition url_safe (c : ascii) : bool :=
  always_safe c || Ascii.eqb c "+" || Ascii.eqb c "%".

(** [urllib.parse.unquote_plus]: the text an encoded text stands for. *)
Definition hex_value (c : ascii) : option N :=
  let n := N_of_ascii c in
  if ((48 <=? n) && (n <=? 57))%N then Some (n - 48)%N
  else if ((65 <=? n) && (n <=? 70))%N then Some (n - 55)%N
  else if ((97 <=? n) && (n <=? 102))%N then Some (n - 87)%N
  else None.

Fixpoint unquote_plus (s : string) : string :=
  match s with
  | EmptyString => EmptyString
  | String c t =>
      if Ascii.eqb c "+" then String " " (unquote_plus t)
      else if Ascii.eqb c "%" then
        match t with
        | String a (String b r) =>
            match hex_value a, hex_value b with
            | Some x, Some y => String (ascii_of_N (16 * x + y)) (unquote_plus r)
            | _, _ => String c (unquote_plus t)
            end
        | _ => String c (unquote_plus t)
        end
      else String c (unquote_plus t)
  end.

Fixpoint no_char (sep : ascii) (s : string) : bool :=
  match s with
  | EmptyString => true
  | String c rest => negb (Ascii.eqb c sep) && no_char sep rest
  end.

(** The part of an address after its first question mark. *)
Fixpoint query_of (url : string) : string :=
  match url with
  | EmptyString => EmptyString
  | String c rest => if Ascii.eqb c "?" then rest else query_of rest
  end.

(** A text that [float()] rejects whatever follows its first character: the
    empty text, and a text that starts with a letter of A-Z or a-z other
    than i, I, n and N (so not a digit, a sign, a point, a blank, nor the
    start of "inf", "infinity" or "nan"). *)
Definition never_a_number (s : string) : bool :=
  match s with
  | EmptyString => true
  | String c _ =>
      let n := N_of_ascii c in
      ((65 <=? n) && (n <=? 90) || (97 <=? n) && (n <=? 122))%N
      && negb ((n =? 73) || (n =? 105) || (n =? 78) || (n =? 110))%N
  end.

(** ** Sample data

    The two-period forecast of the specification's end-to-end example (the
    fields it leaves open are filled in), a forecast whose two periods tie,
    and the square of its centroid example, closed by its first vertex. *)

Definition sample_square : list coordinate :=
  [(0, 0); (0, 2); (2, 2); (2, 0); (0, 0)].

Definition sample_forecast : forecast :=
  Forecast
    [ Period "2023-01-01T00:00:00-08:00" 70 40 "5 mph" 10;
      Period "2023-01-01T01:00:00-08:00" 75 55 "10 mph" 20 ]
    [sample_square].

Definition tie_forecast (t1 t2 : string) : forecast :=
  Forecast [ Period t1 5 30 "2 mph" 0; Period t2 5 30 "2 mph" 0 ] [sample_square].

(** A stand-in for [**] where a statement is run on sample data. *)
Definition sample_pow (x y : Q) : Q := x.

(** * The extremum scan *)

Lemma Qlt_bool_iff (x y : Q) : Qlt_bool x y = true <-> x < y.
Proof.
  unfold Qlt_bool. rewrite negb_true_iff. split; intros H.
  - apply Qnot_le_lt. intros Hle. apply Qle_bool_iff in Hle. congruence.
  - destruct (Qle_bool y x) eqn:E; [|reflexivity].
    apply Qle_bool_iff in E. exfalso. apply (Qlt_not_le _ _ H E).
Qed.

Lemma Qlt_bool_false (x y : Q) : Qlt_bool x y = false <-> y <= x.
Proof.
  unfold Qlt_bool. rewrite negb_false_iff. apply Qle_bool_iff.
Qed.

Lemma bind_ret {A B : Type} (a : A) (k : A -> py B) : bind (ret a) k = k a.
Proof. reflexivity. Qed.

Lemma index_app_middle {A : Type} (pre : list A) (x : A) (post : list A) :
  index (pre ++ x :: post) (List.length pre) = ret x.
Proof.
  unfold index. rewrite nth_error_app2 by lia.
  rewrite Nat.sub_diag. reflexivity.
Qed.

(** A loop over consecutive indices of the period list is the reducer run
    on the pairs collected from those periods. *)
Lemma for_each_collect (value : period -> py Q) (limit : string) :
  forall (ps pre post : list period) (st : option Q * option string),
    for_each (seq (List.length pre) (List.length ps))
      (fun i '(target, target_datetime) =>
         p <- index (pre ++ ps ++ post) i ;;
         curr <- value p ;;
         ret (_process_curr_item curr target (startTime p) target_datetime limit))
      st
    = (items <- collect value ps ;; ret (fold_left (step limit) items st)).
Proof.
  induction ps as [|p ps IH]; intros pre post st.
  - reflexivity.
  - cbn [List.length seq for_each collect].
    destruct st as [target target_datetime].
    replace (pre ++ (p :: ps) ++ post)%list with (pre ++ p :: (ps ++ post))%list by reflexivity.
    rewrite index_app_middle. rewrite bind_ret.
    destruct (value p) as [e|v]; [reflexivity|]. cbn [bind ret].
    specialize (IH (pre ++ [p])%list post
                  (_process_curr_item v target (startTime p) target_datetime limit)).
    rewrite length_app, Nat.add_1_r in IH. cbn [List.length] in IH.
    rewrite <- app_assoc in IH. cbn [app] in IH.
    rewrite IH.
    destruct (collect value ps) as [e|items]; reflexivity.
Qed.

Lemma window_length (data : forecast) (length : Z) :
  (length <= _available_num_of_time_periods data)%Z ->
  List.length (window data length) = Z.to_nat length.
Proof.
  unfold window, _available_num_of_time_periods. intros H.
  rewrite length_firstn. lia.
Qed.

(** Within the available periods, every loop is [scan] on its window. *)
Lemma metric_loop_scan (float_pow : Q -> Q -> Q) (m : metric) (data : forecast)
    (length : Z) (limit : string) :
  (length <= _available_num_of_time_periods data)%Z ->
  metric_loop float_pow m data length limit
  = (items <- collect (metric_value float_pow m) (window data length) ;;
     ret (scan limit items)).
Proof.
  intros H.
  pose proof (for_each_collect (metric_value float_pow m) limit
                (window data length) [] (skipn (Z.to_nat length) (periods data))
                (None, None)) as E.
  rewrite window_length in E by exact H.
  cbn [List.length app] in E. unfold window in E at 1.
  rewrite firstn_skipn in E.
  unfold scan. rewrite <- E. clear E.
  destruct m; reflexivity.
Qed.

Lemma step_first (limit : string) (d : option string) (x : Q * string) :
  step limit (None, d) x = (Some (fst x), Some (snd x)).
Proof. reflexivity. Qed.

Lemma step_max (v : Q) (d : string) (x : Q * string) :
  step "MAX" (Some v, Some d) x
  = if Qlt_bool v (fst x) then (Some (fst x), Some (snd x)) else (Some v, Some d).
Proof.
  unfold step, _process_curr_item, Qgt_bool. cbn [fst snd String.eqb Ascii.eqb Bool.eqb andb orb].
  destruct (Qlt_bool v (fst x)); reflexivity.
Qed.

Lemma step_min (v : Q) (d : string) (x : Q * string) :
  step "MIN" (Some v, Some d) x
  = if Qlt_bool (fst x) v then (Some (fst x), Some (snd x)) else (Some v, Some d).
Proof.
  unfold step, _process_curr_item. cbn [fst snd String.eqb Ascii.eqb Bool.eqb andb orb].
  destruct (Qlt_bool (fst x) v); reflexivity.
Qed.

Lemma step_other (limit : string) (v : Q) (d : string) (x : Q * string) :
  limit <> "MAX" -> limit <> "MIN" ->
  step limit (Some v, Some d) x = (Some v, Some d).
Proof.
  intros Hmax Hmin. unfold step, _process_curr_item. cbn [fst snd].
  apply String.eqb_neq in Hmax, Hmin. rewrite Hmax, Hmin. reflexivity.
Qed.

(** MAX: the loop ends on the first pair whose value no pair exceeds. *)
Lemma scan_max_from (l : list (Q * string)) (v0 : Q) (d0 : string) :
  exists pre v d post,
    (v0, d0) :: l = (pre ++ (v, d) :: post)%list
    /\ fold_left (step "MAX") l (Some v0, Some d0) = (Some v, Some d)
    /\ Forall (fun x => fst x < v) pre
    /\ Forall (fun x => fst x <= v) post.
Proof.
  induction l as [|x l IH] using rev_ind.
  - exists [], v0, d0, []. repeat split; constructor.
  - destruct IH as (pre & v & d & post & Hsplit & Hfold & Hpre & Hpost).
    rewrite fold_left_app, Hfold. cbn [fold_left]. rewrite step_max.
    destruct (Qlt_bool v (fst x)) eqn:E.
    + apply Qlt_bool_iff in E.
      exists (pre ++ (v, d) :: post)%list, (fst x), (snd x), [].
      repeat split.
      * rewrite app_comm_cons, Hsplit. destruct x; reflexivity.
      * apply Forall_app. split.
        -- eapply Forall_impl; [|exact Hpre]. intros a Ha. cbn beta in *.
           eapply Qlt_trans; eassumption.
        -- constructor; [exact E|].
           eapply Forall_impl; [|exact Hpost]. intros a Ha. cbn beta in *.
           eapply Qle_lt_trans; eassumption.
      * constructor.
    + apply Qlt_bool_false in E.
      exists pre, v, d, (post ++ [x])%list.
      repeat split.
      * rewrite app_comm_cons, Hsplit, <- app_assoc. reflexivity.
      * exact Hpre.
      * apply Forall_app. split; [exact Hpost|]. constructor; [exact E|constructor].
Qed.

(** MIN: the loop ends on the first pair whose value no pair goes below. *)
Lemma scan_min_from (l : list (Q * string)) (v0 : Q) (d0 : string) :
  exists pre v d post,
    (v0, d0) :: l = (pre ++ (v, d) :: post)%list
    /\ fold_left (step "MIN") l (Some v0, Some d0) = (Some v, Some d)
    /\ Forall (fun x => v < fst x) pre
    /\ Forall (fun x => v <= fst x) post.
Proof.
  induction l as [|x l IH] using rev_ind.
  - exists [], v0, d0, []. repeat split; constructor.
  - destruct IH as (pre & v & d & post & Hsplit & Hfold & Hpre & Hpost).
    rewrite fold_left_app, Hfold. cbn [fold_left]. rewrite step_min.
    destruct (Qlt_bool (fst x) v) eqn:E.
    + apply Qlt_bool_iff in E.
      exists (pre ++ (v, d) :: post)%list, (fst x), (snd x), [].
      repeat split.
      * rewrite app_comm_cons, Hsplit. destruct x; reflexivity.
      * apply Forall_app. split.
        -- eapply Forall_impl; [|exact Hpre]. intros a Ha. cbn beta in *.
           eapply Qlt_trans; eassumption.
        -- constructor; [exact E|].
           eapply Forall_impl; [|exact Hpost]. intros a Ha. cbn beta in *.
           eapply Qlt_le_trans; eassumption.
      * constructor.
    + apply Qlt_bool_false in E.
      exists pre, v, d, (post ++ [x])%list.
      repeat split.
      * rewrite app_comm_cons, Hsplit, <- app_assoc. reflexivity.
      * exact Hpre.
      * apply Forall_app. split; [exact Hpost|]. constructor; [exact E|constructor].
Qed.

(** Any other [limit]: after the first round nothing changes. *)
Lemma scan_other_from (limit : string) (l : list (Q * string)) (v0 : Q) (d0 : string) :
  limit <> "MAX" -> limit <> "MIN" ->
  fold_left (step limit) l (Some v0, Some d0) = (Some v0, Some d0).
Proof.
  intros Hmax Hmin. induction l as [|x l IH].
  - reflexivity.
  - cbn [fold_left]. rewrite step_other by assumption. exact IH.
Qed.

Lemma scan_cons (limit : string) (x : Q * string) (l : list (Q * string)) :
  scan limit (x :: l) = fold_left (step limit) l (Some (fst x), Some (snd x)).
Proof. reflexivity. Qed.

Lemma collect_length (value : period -> py Q) (ps : list period) (items : list (Q * string)) :
  collect value ps = inr items -> List.length items = List.length ps.
Proof.
  revert items. induction ps as [|p ps IH]; intros items H.
  - inversion H. reflexivity.
  - cbn [collect] in H. destruct (value p) as [e|v]; [discriminate|].
    cbn [bind] in H. destruct (collect value ps) as [e|rest]; [discriminate|].
    inversion H. cbn [List.length]. f_equal. apply IH. reflexivity.
Qed.

(** A window of length at least one has a first pair. *)
Lemma window_items_nonempty (value : period -> py Q) (data : forecast) (length : Z)
    (items : list (Q * string)) :
  (1 <= length <= _available_num_of_time_periods data)%Z ->
  collect value (window data length) = inr items ->
  exists x rest, items = x :: rest.
Proof.
  intros Hlen Hc. apply collect_length in Hc.
  rewrite window_length in Hc by lia.
  destruct items as [|x rest]; [cbn in Hc; lia|].
  exists x, rest. reflexivity.
Qed.

(** ** The scan on a window *)

(** C1.  On a window of at least one period, within the periods available,
    a query run with limit MAX ends on a (value, timestamp) pair of the
    window whose value is at least the value of every pair of the window;
    run with MIN, on a pair of the window whose value is at most every
    value. *)
Theorem extremum_bounds (float_pow : Q -> Q -> Q) (m : metric) (data : forecast)
    (length : Z) (items : list (Q * string)) :
  (1 <= length <= _available_num_of_time_periods data)%Z ->
  collect (metric_value float_pow m) (window data length) = inr items ->
  (exists v d,
      metric_loop float_pow m data length "MAX" = inr (Some v, Some d)
      /\ In (v, d) items
      /\ forall x, In x items -> fst x <= v)
  /\ (exists v d,
      metric_loop float_pow m data length "MIN" = inr (Some v, Some d)
      /\ In (v, d) items
      /\ forall x, In x items -> v <= fst x).
Proof.
  intros Hlen Hc.
  destruct (window_items_nonempty _ _ _ _ Hlen Hc) as ([v0 d0] & rest & ->).
  rewrite !metric_loop_scan by lia. rewrite Hc. cbn [bind ret].
  rewrite !scan_cons. cbn [fst snd].
  split.
  - destruct (scan_max_from rest v0 d0) as (pre & v & d & post & Hs & Hf & Hpre & Hpost).
    exists v, d. rewrite Hf, Hs. repeat split.
    + apply in_elt.
    + intros x Hx. apply in_app_or in Hx. destruct Hx as [Hx|[Hx|Hx]].
      * apply Qlt_le_weak. revert x Hx. apply Forall_forall. exact Hpre.
      * subst x. apply Qle_refl.
      * revert x Hx. apply Forall_forall. exact Hpost.
  - destruct (scan_min_from rest v0 d0) as (pre & v & d & post & Hs & Hf & Hpre & Hpost).
    exists v, d. rewrite Hf, Hs. repeat split.
    + apply in_elt.
    + intros x Hx. apply in_app_or in Hx. destruct Hx as [Hx|[Hx|Hx]].
      * apply Qlt_le_weak. revert x Hx. apply Forall_forall. exact Hpre.
      * subst x. apply Qle_refl.
      * revert x Hx. apply Forall_forall. exact Hpost.
Qed.

Lemma extremum_bounds_witness :
  (exists v d,
      metric_loop sample_pow (Air "F") sample_forecast 2 "MAX" = inr (Some v, Some d)
      /\ In (v, d) [(70, "2023-01-01T00:00:00-08:00"); (75, "2023-01-01T01:00:00-08:00")]
      /\ forall x, In x [(70, "2023-01-01T00:00:00-08:00"); (75, "2023-01-01T01:00:00-08:00")]
                   -> fst x <= v)
  /\ (exists v d,
      metric_loop sample_pow (Air "F") sample_forecast 2 "MIN" = inr (Some v, Some d)
      /\ In (v, d) [(70, "2023-01-01T00:00:00-08:00"); (75, "2023-01-01T01:00:00-08:00")]
      /\ forall x, In x [(70, "2023-01-01T00:00:00-08:00"); (75, "2023-01-01T01:00:00-08:00")]
                   -> v <= fst x).
Proof.
  apply (extremum_bounds sample_pow (Air "F") sample_forecast 2).
  - vm_compute. split; discriminate.
  - reflexivity.
Defined.

(** C2.  Ties keep the first pair met: with MAX the loop ends on a pair
    that every earlier pair of the window stays strictly below and no later
    pair exceeds, so a later pair of equal value never replaces it; with MIN
    likewise with the order reversed.  Two periods of value 5 give the
    first one. *)
Theorem first_extremum_wins (float_pow : Q -> Q -> Q) (m : metric) (data : forecast)
    (length : Z) (items : list (Q * string)) :
  (1 <= length <= _available_num_of_time_periods data)%Z ->
  collect (metric_value float_pow m) (window data length) = inr items ->
  (exists pre v d post,
      items = (pre ++ (v, d) :: post)%list
      /\ metric_loop float_pow m data length "MAX" = inr (Some v, Some d)
      /\ Forall (fun x => fst x < v) pre
      /\ Forall (fun x => fst x <= v) post)
  /\ (exists pre v d post,
      items = (pre ++ (v, d) :: post)%list
      /\ metric_loop float_pow m data length "MIN" = inr (Some v, Some d)
      /\ Forall (fun x => v < fst x) pre
      /\ Forall (fun x => v <= fst x) post).
Proof.
  intros Hlen Hc.
  destruct (window_items_nonempty _ _ _ _ Hlen Hc) as ([v0 d0] & rest & ->).
  rewrite !metric_loop_scan by lia. rewrite Hc. cbn [bind ret].
  rewrite !scan_cons. cbn [fst snd].
  split.
  - destruct (scan_max_from rest v0 d0) as (pre & v & d & post & Hs & Hf & Hpre & Hpost).
    exists pre, v, d, post. rewrite Hf. auto.
  - destruct (scan_min_from rest v0 d0) as (pre & v & d & post & Hs & Hf & Hpre & Hpost).
    exists pre, v, d, post. rewrite Hf. auto.
Qed.

Lemma first_extremum_wins_witness :
  (exists pre v d post,
      [(5, "t1"); (5, "t2")] = (pre ++ (v, d) :: post)%list
      /\ metric_loop sample_pow (Air "F") (tie_forecast "t1" "t2") 2 "MAX"
         = inr (Some v, Some d)
      /\ Forall (fun x : Q * string => fst x < v) pre
      /\ Forall (fun x : Q * string => fst x <= v) post)
  /\ (exists pre v d post,
      [(5, "t1"); (5, "t2")] = (pre ++ (v, d) :: post)%list
      /\ metric_loop sample_pow (Air "F") (tie_forecast "t1" "t2") 2 "MIN"
         = inr (Some v, Some d)
      /\ Forall (fun x : Q * string => v < fst x) pre
      /\ Forall (fun x : Q * string => v <= fst x) post).
Proof.
  apply (first_extremum_wins sample_pow (Air "F") (tie_forecast "t1" "t2") 2).
  - vm_compute. split; discriminate.
  - reflexivity.
Defined.

(** The tie of the specification, run: [(5,t1),(5,t2)] gives (5,t1) with
    MAX and with MIN, whatever the two timestamps. *)
Example tie_keeps_first (t1 t2 : string) :
  air_temperature_loop (tie_forecast t1 t2) "F" 2 "MAX" = inr (Some 5, Some t1)
  /\ air_temperature_loop (tie_forecast t1 t2) "F" 2 "MIN" = inr (Some 5, Some t1).
Proof. split; reflexivity. Qed.

(** C10.  With a limit that is neither "MAX" nor "MIN", a query over a
    window of at least one period ends on the first pair of the window. *)
Theorem other_limit_keeps_first (float_pow : Q -> Q -> Q) (m : metric) (data : forecast)
    (length : Z) (limit : string) (items : list (Q * string)) :
  limit <> "MAX" -> limit <> "MIN" ->
  (1 <= length <= _available_num_of_time_periods data)%Z ->
  collect (metric_value float_pow m) (window data length) = inr items ->
  exists x rest,
    items = x :: rest
    /\ metric_loop float_pow m data length limit = inr (Some (fst x), Some (snd x)).
Proof.
  intros Hmax Hmin Hlen Hc.
  destruct (window_items_nonempty _ _ _ _ Hlen Hc) as (x & rest & ->).
  exists x, rest. split; [reflexivity|].
  rewrite metric_loop_scan by lia. rewrite Hc. cbn [bind ret].
  rewrite scan_cons. rewrite scan_other_from by assumption. reflexivity.
Qed.

Lemma other_limit_keeps_first_witness :
  exists x rest,
    [(70, "2023-01-01T00:00:00-08:00"); (75, "2023-01-01T01:00:00-08:00")] = x :: rest
    /\ metric_loop sample_pow (Air "F") sample_forecast 2 "max"
       = inr (Some (fst x), Some (snd x)).
Proof.
  apply (other_limit_keeps_first sample_pow (Air "F") sample_forecast 2 "max").
  - discriminate.
  - discriminate.
  - vm_compute. split; discriminate.
  - reflexivity.
Defined.

(** * temperature.py *)

Lemma calc_heat_index_sum (t h : Q) :
  calc_heat_index t h
  == -42.379 + 2.04901523 * t + 10.14333127 * h - 0.22475541 * t * h
     - 0.00683783 * t ^ 2 - 0.05481717 * h ^ 2 + 0.00122874 * t ^ 2 * h
     + 0.00085282 * t * h ^ 2 - 0.00000199 * t ^ 2 * h ^ 2.
Proof. unfold calc_heat_index. cbn [fold_left]. ring. Qed.

Lemma calc_wind_chill_sum (float_pow : Q -> Q -> Q) (t w : Q) :
  calc_wind_chill float_pow t w
  == 35.74 + 0.6215 * t - 35.75 * float_pow w 0.16 + 0.4275 * t * float_pow w 0.16.
Proof. unfold calc_wind_chill. cbn [fold_left]. ring. Qed.

(** C4.  The sum [calc_heat_index] accumulates is the nine-term polynomial,
    and for a wind speed above zero the sum [calc_wind_chill] accumulates is
    35.74 + 0.6215 t - 35.75 w^0.16 + 0.4275 t w^0.16, where w^0.16 is
    [float_pow w 0.16]. *)
Theorem formulas_as_stated (float_pow : Q -> Q -> Q) (t h t' w : Q) :
  0 < w ->
  calc_heat_index t h
  == -42.379 + 2.04901523 * t + 10.14333127 * h - 0.22475541 * t * h
     - 0.00683783 * t ^ 2 - 0.05481717 * h ^ 2 + 0.00122874 * t ^ 2 * h
     + 0.00085282 * t * h ^ 2 - 0.00000199 * t ^ 2 * h ^ 2
  /\ calc_wind_chill float_pow t' w
     == 35.74 + 0.6215 * t' - 35.75 * float_pow w 0.16 + 0.4275 * t' * float_pow w 0.16.
Proof.
  intros _. split.
  - apply calc_heat_index_sum.
  - apply calc_wind_chill_sum.
Qed.

(** The two reference points of the specification: heatIndex(68, 50) is
    77.35084222, and windChill(50, 4) is 66.815 - 14.375 * 4^0.16. *)
Lemma formulas_as_stated_witness :
  0 < 4
  /\ calc_heat_index 68 50 == 77.35084222
  /\ calc_wind_chill sample_pow 50 4 == 66.815 - 14.375 * sample_pow 4 0.16.
Proof.
  assert (H : 0 < 4) by reflexivity.
  split; [exact H|].
  destruct (formulas_as_stated sample_pow 68 50 50 4 H) as [Hh Hw].
  split.
  - rewrite Hh. reflexivity.
  - rewrite Hw. reflexivity.
Defined.

(** On doubles, heatIndex(68, 50) is within 2^-40 of 77.35084222. *)
#[warnings="-inexact-float"]
Example heat_index_68_50_double :
  Float64.close (Float64.calc_heat_index 68 50) 77.35084222 0x1p-40 = true.
Proof. reflexivity. Qed.

Example wind_chill_50_4 (float_pow : Q -> Q -> Q) :
  calc_wind_chill float_pow 50 4 == 66.815 - 14.375 * float_pow 4 0.16.
Proof. rewrite calc_wind_chill_sum. ring. Qed.



(** * The feels-like temperature *)

Lemma feels_like_loop_scan (float_pow : Q -> Q -> Q) (data : forecast) (scale : string)
    (length : Z) (limit : string) :
  (length <= _available_num_of_time_periods data)%Z ->
  feels_like_temperature_loop float_pow data scale length limit
  = (items <- collect (feels_like_curr_temp float_pow scale) (window data length) ;;
     ret (scan limit items)).
Proof. intros H. exact (metric_loop_scan float_pow (Feels scale) data length limit H). Qed.

(** C3.  For a period whose wind speed reads as [w], the value the
    feels-like loop compares is chosen on the raw Fahrenheit temperature:
    the heat index from 68 up (68 included); the wind chill up to 50 (50
    included) when the wind is above 3 mph; the raw temperature in between
    and up to 50 when the wind is at most 3 mph.  The Celsius conversion,
    if asked for, is applied to the value so chosen. *)
Theorem feels_like_selection (float_pow : Q -> Q -> Q) (scale : string) (p : period) (w : Q) :
  _simplify_wind_speed (windSpeed p) = inr w ->
  let raw := temperature p in
  let convert := fun x : Q => if String.eqb scale "C" then celsius x else x in
  (68 <= raw ->
   feels_like_curr_temp float_pow scale p
   = inr (convert (calc_heat_index raw (relativeHumidity p))))
  /\ (raw <= 50 -> 3 < w ->
      feels_like_curr_temp float_pow scale p
      = inr (convert (calc_wind_chill float_pow raw w)))
  /\ (raw <= 50 -> w <= 3 ->
      feels_like_curr_temp float_pow scale p = inr (convert raw))
  /\ (50 < raw -> raw < 68 ->
      feels_like_curr_temp float_pow scale p = inr (convert raw)).
Proof.
  intros Hw raw convert. unfold feels_like_curr_temp. rewrite Hw. cbn [bind ret].
  fold raw. unfold Qge_bool, Qgt_bool.
  repeat split.
  - intros H. apply Qle_bool_iff in H. rewrite H. reflexivity.
  - intros H50 H3.
    assert (E68 : Qle_bool 68 raw = false).
    { destruct (Qle_bool 68 raw) eqn:E; [|reflexivity].
      apply Qle_bool_iff in E. lra. }
    rewrite E68. apply Qle_bool_iff in H50. apply Qlt_bool_iff in H3.
    rewrite H50, H3. reflexivity.
  - intros H50 H3.
    assert (E68 : Qle_bool 68 raw = false).
    { destruct (Qle_bool 68 raw) eqn:E; [|reflexivity].
      apply Qle_bool_iff in E. lra. }
    rewrite E68. apply Qlt_bool_false in H3. rewrite H3, andb_false_r. reflexivity.
  - intros H50 H68.
    assert (E68 : Qle_bool 68 raw = false).
    { destruct (Qle_bool 68 raw) eqn:E; [|reflexivity].
      apply Qle_bool_iff in E. lra. }
    assert (E50 : Qle_bool raw 50 = false).
    { destruct (Qle_bool raw 50) eqn:E; [|reflexivity].
      apply Qle_bool_iff in E. lra. }
    rewrite E68, E50. reflexivity.
Qed.

(** The three points of the specification: 68 with the heat index, 50 at
    4 mph with the wind chill, 60 unchanged. *)
Lemma feels_like_selection_witness :
  feels_like_curr_temp sample_pow "F" (Period "t" 68 50 "4 mph" 0)
  = inr (calc_heat_index 68 50)
  /\ feels_like_curr_temp sample_pow "F" (Period "t" 50 50 "4 mph" 0)
     = inr (calc_wind_chill sample_pow 50 4)
  /\ feels_like_curr_temp sample_pow "F" (Period "t" 60 50 "4 mph" 0) = inr 60.
Proof.
  split; [|split].
  - apply (feels_like_selection sample_pow "F" (Period "t" 68 50 "4 mph" 0) 4);
      [reflexivity | discriminate].
  - apply (feels_like_selection sample_pow "F" (Period "t" 50 50 "4 mph" 0) 4);
      [reflexivity | discriminate | reflexivity].
  - apply (feels_like_selection sample_pow "F" (Period "t" 60 50 "4 mph" 0) 4);
      [reflexivity | reflexivity | reflexivity].
Defined.

(** * The first geocode point *)

(** C8, as the code has it.  On an empty answer the lookup of element 0
    raises [IndexError]; on an answer whose first candidate has a latitude
    and a longitude that read as numbers, those two numbers are returned. *)
Theorem first_geocode_point (first : place) (rest : list place) (la lo : Q) :
  float_ (lat first) = inr la ->
  float_ (lon first) = inr lo ->
  get_latitude_and_longitude [] = inl IndexError
  /\ get_latitude_and_longitude (first :: rest) = inr (la, lo).
Proof.
  intros Hla Hlo. split; [reflexivity|].
  unfold get_latitude_and_longitude, index. cbn [nth_error bind ret].
  rewrite Hla, Hlo. reflexivity.
Qed.

Lemma first_geocode_point_witness :
  get_latitude_and_longitude [] = inl IndexError
  /\ get_latitude_and_longitude
       [Place (JString "33.64") (JString "-117.84") "Irvine"; Place (JNumber 1) (JNumber 2) ""]
     = inr (33.64, -117.84).
Proof.
  apply (first_geocode_point (Place (JString "33.64") (JString "-117.84") "Irvine")
           [Place (JNumber 1) (JNumber 2) ""] 33.64 (-117.84)); reflexivity.
Defined.

(** C8 as written fails: the exception on an empty answer is not
    [NotFoundError]. *)
Lemma empty_geocode_is_index_error :
  get_latitude_and_longitude [] <> inl NotFoundError.
Proof. discriminate. Qed.

(** * The clamp of the window *)

Lemma split_nonempty (sep : ascii) (s : string) : split sep s <> [].
Proof.
  destruct s as [|c r]; cbn [split]; [discriminate|].
  destruct (Ascii.eqb c sep); [discriminate|].
  destruct (split sep r); discriminate.
Qed.

Lemma split_no_space (s : string) : no_space s = true -> split " " s = [s].
Proof.
  induction s as [|c r IH]; intros H; [reflexivity|].
  cbn [no_space] in H. apply andb_true_iff in H. destruct H as [Hc Hr].
  apply negb_true_iff in Hc. cbn [split]. rewrite Hc, (IH Hr). reflexivity.
Qed.

Lemma split_field (a b : string) :
  no_space a = true -> split " " (a ++ String " " b) = a :: split " " b.
Proof.
  induction a as [|c r IH]; intros H.
  - reflexivity.
  - cbn [no_space] in H. apply andb_true_iff in H. destruct H as [Hc Hr].
    apply negb_true_iff in Hc. cbn [append split]. rewrite Hc, (IH Hr). reflexivity.
Qed.

Lemma append_empty (s : string) : s ++ "" = s.
Proof. induction s as [|c r IH]; [reflexivity|]. cbn [append]. rewrite IH. reflexivity. Qed.

Lemma bind_ret_r {A : Type} (m : py A) : (x <- m ;; ret x) = m.
Proof. destruct m; reflexivity. Qed.

(** Every query is its loop followed by the same formatting. *)
Lemma metric_query_unfold (float_pow : Q -> Q -> Q) (m : metric) (data : forecast)
    (length : Z) (limit : string) :
  metric_query float_pow m data length limit
  = ('(target, target_datetime) <- metric_loop float_pow m data length limit ;;
     when <- _datetime_to_utc target_datetime ;;
     value <- format_4f target ;;
     ret (when ++ " " ++ value ++ suffix m)).
Proof.
  destruct m; cbn [metric_query metric_loop suffix];
    unfold air_temperature, feels_like_temperature, humidity, wind_speed,
      chance_of_precipitation;
    match goal with |- bind ?l _ = _ => destruct l as [e|[t d]] end;
    cbn [bind]; try reflexivity;
    destruct (_datetime_to_utc d) as [e|w]; cbn [bind]; try reflexivity;
    destruct (format_4f t) as [e|v]; cbn [bind]; try reflexivity;
    rewrite append_empty; reflexivity.
Qed.

(** What the dispatch does with the text of a query. *)
Lemma query_text_dispatch (float_pow : Q -> Q -> Q) (m : metric) (data : forecast)
    (len limit : string) (L : Z) :
  no_space (scale_of m) = true ->
  no_space len = true ->
  no_space limit = true ->
  int_ len = inr L ->
  _get_query_results float_pow [query_text m len limit] data
  = (r <- metric_query float_pow m data
            (Z.min L (_available_num_of_time_periods data)) limit ;;
     ret [r]).
Proof.
  intros Hscale Hlen Hlimit HL.
  unfold _get_query_results. cbn [for_each]. rewrite bind_ret_r.
  destruct m as [scale|scale| | |]; cbn [query_text scale_of] in *;
    cbn [append split Ascii.eqb Bool.eqb];
    repeat (rewrite split_field by assumption; cbn [append split Ascii.eqb Bool.eqb]);
    rewrite (split_no_space limit) by assumption;
    unfold _query, index; cbn [nth_error bind ret String.eqb Ascii.eqb Bool.eqb];
    rewrite HL; cbn [bind ret metric_query app];
    reflexivity.
Qed.

(** Within the available periods nothing raises [IndexError]. *)
Lemma float_of_string_error (s : string) (e : exn) :
  float_of_string s = inl e -> e = ValueError.
Proof.
  unfold float_of_string. destruct (parse_float s); intros H; inversion H. reflexivity.
Qed.

Lemma _simplify_wind_speed_error (s : string) (e : exn) :
  _simplify_wind_speed s = inl e -> e = ValueError.
Proof.
  unfold _simplify_wind_speed, index.
  pose proof (split_nonempty " " s) as Hne.
  destruct (split " " s) as [|w ws]; [congruence|].
  cbn [nth_error bind ret]. apply float_of_string_error.
Qed.

Lemma metric_value_error (float_pow : Q -> Q -> Q) (m : metric) (p : period) (e : exn) :
  metric_value float_pow m p = inl e -> e = ValueError.
Proof.
  destruct m; cbn [metric_value]; try discriminate.
  - unfold feels_like_curr_temp.
    destruct (_simplify_wind_speed (windSpeed p)) as [e'|w] eqn:E; cbn [bind].
    + intros H. inversion H. subst e'. eapply _simplify_wind_speed_error. exact E.
    + discriminate.
  - apply _simplify_wind_speed_error.
Qed.

Lemma collect_error (value : period -> py Q) (ps : list period) (e : exn) :
  collect value ps = inl e -> exists p, In p ps /\ value p = inl e.
Proof.
  induction ps as [|p ps IH]; cbn [collect]; [discriminate|].
  destruct (value p) as [e'|v] eqn:E; cbn [bind].
  - intros H. inversion H. subst e'. exists p. split; [left; reflexivity|exact E].
  - destruct (collect value ps) as [e'|items]; cbn [bind]; [|discriminate].
    intros H. inversion H. subst e'.
    destruct (IH eq_refl) as (q & Hq & Hv). exists q. split; [right; exact Hq|exact Hv].
Qed.

Lemma fromisoformat_error (s : string) (e : exn) :
  fromisoformat s = inl e -> e = ValueError.
Proof.
  unfold fromisoformat. destruct (iso_fields s) as [dt|].
  - destruct (valid_datetime dt); intros H; inversion H. reflexivity.
  - intros H. inversion H. reflexivity.
Qed.

Lemma astimezone_utc_error (dt : datetime) (e : exn) :
  astimezone_utc dt = inl e -> e = OverflowError.
Proof.
  unfold astimezone_utc.
  destruct (if (_ <? 0)%Z then _ else _) as [[[y m] d] secs'].
  destruct ((1 <=? y) && (y <=? 9999))%Z; intros H; inversion H. reflexivity.
Qed.

Lemma _datetime_to_utc_error (d : option string) (e : exn) :
  _datetime_to_utc d = inl e -> e = TypeError \/ e = ValueError \/ e = OverflowError.
Proof.
  unfold _datetime_to_utc. destruct d as [s|].
  - destruct (fromisoformat s) as [e'|dt] eqn:E; cbn [bind].
    + intros H. inversion H. subst e'. right. left. eapply fromisoformat_error. exact E.
    + destruct (astimezone_utc dt) as [e'|u] eqn:E'; cbn [bind]; [|discriminate].
      intros H. inversion H. subst e'. right. right. eapply astimezone_utc_error. exact E'.
  - intros H. inversion H. left. reflexivity.
Qed.

Lemma format_4f_error (x : option Q) (e : exn) : format_4f x = inl e -> e = TypeError.
Proof. destruct x; cbn [format_4f]; intros H; inversion H. reflexivity. Qed.

Lemma metric_query_in_range (float_pow : Q -> Q -> Q) (m : metric) (data : forecast)
    (length : Z) (limit : string) :
  (length <= _available_num_of_time_periods data)%Z ->
  metric_query float_pow m data length limit <> inl IndexError.
Proof.
  intros Hlen. rewrite metric_query_unfold, metric_loop_scan by exact Hlen.
  destruct (collect (metric_value float_pow m) (window data length)) as [e|items] eqn:E;
    cbn [bind ret].
  - apply collect_error in E. destruct E as (p & _ & Hp).
    apply metric_value_error in Hp. subst e. discriminate.
  - destruct (scan limit items) as [t d].
    destruct (_datetime_to_utc d) as [e|w] eqn:E1; cbn [bind].
    + apply _datetime_to_utc_error in E1. destruct E1 as [->|[->| ->]]; discriminate.
    + destruct (format_4f t) as [e|v] eqn:E2; cbn [bind]; [|discriminate].
      apply format_4f_error in E2. subst e. discriminate.
Qed.

(** C7.  A query typed with a length that reads as [L] is run on
    [min(L, available)] periods, whatever [L]; so run, it never raises
    [IndexError]; and when [L] is at least the number of available periods
    its answer is the answer over exactly the available periods. *)
Theorem window_is_clamped (float_pow : Q -> Q -> Q) (m : metric) (data : forecast)
    (len limit : string) (L : Z) :
  no_space (scale_of m) = true ->
  no_space len = true ->
  no_space limit = true ->
  int_ len = inr L ->
  let n := _available_num_of_time_periods data in
  _get_query_results float_pow [query_text m len limit] data
  = (r <- metric_query float_pow m data (Z.min L n) limit ;; ret [r])
  /\ metric_query float_pow m data (Z.min L n) limit <> inl IndexError
  /\ _get_query_results float_pow [query_text m len limit] data <> inl IndexError
  /\ ((n <= L)%Z ->
      _get_query_results float_pow [query_text m len limit] data
      = (r <- metric_query float_pow m data n limit ;; ret [r])).
Proof.
  intros Hscale Hlen Hlimit HL n.
  pose proof (query_text_dispatch float_pow m data len limit L Hscale Hlen Hlimit HL) as E.
  fold n in E.
  assert (Hin : metric_query float_pow m data (Z.min L n) limit <> inl IndexError).
  { apply metric_query_in_range. fold n. lia. }
  repeat split.
  - exact E.
  - exact Hin.
  - rewrite E.
    destruct (metric_query float_pow m data (Z.min L n) limit) as [e|r]; cbn [bind ret];
      [|discriminate].
    intros H. inversion H. subst e. apply Hin. reflexivity.
  - intros Hge. rewrite E, Z.min_r by exact Hge. reflexivity.
Qed.

Lemma window_is_clamped_witness :
  _get_query_results sample_pow ["HUMIDITY 100 MAX"] sample_forecast
  = (r <- humidity sample_forecast (Z.min 100 2) "MAX" ;; ret [r])
  /\ humidity sample_forecast (Z.min 100 2) "MAX" <> inl IndexError
  /\ _get_query_results sample_pow ["HUMIDITY 100 MAX"] sample_forecast <> inl IndexError
  /\ ((2 <= 100)%Z ->
      _get_query_results sample_pow ["HUMIDITY 100 MAX"] sample_forecast
      = (r <- humidity sample_forecast 2 "MAX" ;; ret [r])).
Proof.
  apply (window_is_clamped sample_pow Humidity sample_forecast "100" "MAX" 100);
    reflexivity.
Defined.

(** Without the clamp a length beyond the periods does run past the end. *)
Example unclamped_length_overruns :
  humidity sample_forecast 3 "MAX" = inl IndexError
  /\ air_temperature sample_forecast "F" 100 "MIN" = inl IndexError.
Proof. split; reflexivity. Qed.

(** Asking for 100 hours of a two-hour forecast answers as asking for 2. *)
Example clamp_run :
  _get_query_results sample_pow ["HUMIDITY 100 MAX"; "TEMPERATURE AIR C 7 MIN"] sample_forecast
  = inr ["2023-01-01T09:00:00Z 55.0000%"; "2023-01-01T08:00:00Z 21.1111"]
  /\ _get_query_results sample_pow ["HUMIDITY 2 MAX"; "TEMPERATURE AIR C 2 MIN"] sample_forecast
     = inr ["2023-01-01T09:00:00Z 55.0000%"; "2023-01-01T08:00:00Z 21.1111"].
Proof. split; vm_compute; reflexivity. Qed.

(** * The forecast location *)

Lemma coord_eq_refl (a : coordinate) : coord_eq a a.
Proof. split; reflexivity. Qed.

Lemma coord_eq_sym (a b : coordinate) : coord_eq a b -> coord_eq b a.
Proof. intros [H1 H2]. split; symmetry; assumption. Qed.

Lemma coord_eq_trans (a b c : coordinate) : coord_eq a b -> coord_eq b c -> coord_eq a c.
Proof. intros [H1 H2] [H3 H4]. split; etransitivity; eassumption. Qed.

Lemma coord_eqb_iff (a b : coordinate) : coord_eqb a b = true <-> coord_eq a b.
Proof.
  unfold coord_eqb, coord_eq. rewrite andb_true_iff, !Qeq_bool_iff. reflexivity.
Qed.

Lemma existsb_member (c : coordinate) (s : list coordinate) :
  existsb (coord_eqb c) s = true <-> member c s.
Proof.
  rewrite existsb_exists. unfold member.
  split; intros (x & Hin & Hx); exists x; (split; [exact Hin|]); apply coord_eqb_iff; exact Hx.
Qed.

Lemma member_eq (a b : coordinate) (l : list coordinate) :
  coord_eq a b -> member b l -> member a l.
Proof.
  intros Hab (x & Hin & Hx). exists x. split; [exact Hin|].
  eapply coord_eq_trans; eassumption.
Qed.

Lemma member_app (c : coordinate) (l1 l2 : list coordinate) :
  member c (l1 ++ l2) <-> member c l1 \/ member c l2.
Proof.
  unfold member. split.
  - intros (x & Hin & Hx). apply in_app_or in Hin.
    destruct Hin as [Hin|Hin]; [left|right]; exists x; auto.
  - intros [(x & Hin & Hx)|(x & Hin & Hx)]; exists x; split; auto;
      apply in_or_app; auto.
Qed.

Lemma member_cons (c a : coordinate) (l : list coordinate) :
  member c (a :: l) <-> coord_eq c a \/ member c l.
Proof.
  unfold member. split.
  - intros (x & [Hin|Hin] & Hx); [left; subst; exact Hx|right; exists x; auto].
  - intros [H|(x & Hin & Hx)]; [exists a|exists x]; split; auto; [left|right]; auto.
Qed.

Lemma member_nil (c : coordinate) : ~ member c [].
Proof. intros (x & [] & _). Qed.

Lemma distinct_middle (l1 : list coordinate) (a : coordinate) (l2 : list coordinate) :
  distinct (l1 ++ a :: l2) -> ~ member a (l1 ++ l2) /\ distinct (l1 ++ l2).
Proof.
  induction l1 as [|b l1 IH]; cbn [app]; intros H.
  - inversion H; subst. split; assumption.
  - inversion H as [|b' l' Hb Hd]; subst.
    destruct (IH Hd) as [Hna Hd'].
    split.
    + intros Hm. apply member_cons in Hm. destruct Hm as [Hab|Hm]; [|exact (Hna Hm)].
      apply Hb. apply member_app. right. apply member_cons. left.
      apply coord_eq_sym. exact Hab.
    + constructor; [|exact Hd'].
      intros Hm. apply Hb. apply member_app in Hm. apply member_app.
      destruct Hm as [Hm|Hm]; [left; exact Hm|right].
      apply member_cons. right. exact Hm.
Qed.

Lemma distinct_snoc (l : list coordinate) (c : coordinate) :
  distinct l -> ~ member c l -> distinct (l ++ [c]).
Proof.
  induction l as [|a l IH]; cbn [app]; intros Hd Hc.
  - constructor; [apply member_nil|constructor].
  - inversion Hd as [|a' l' Ha Hd']; subst.
    constructor.
    + intros Hm. apply member_app in Hm. destruct Hm as [Hm|Hm]; [exact (Ha Hm)|].
      apply member_cons in Hm. destruct Hm as [Hac|Hm]; [|exact (member_nil _ Hm)].
      apply Hc. apply member_cons. left. apply coord_eq_sym. exact Hac.
    + apply IH; [exact Hd'|]. intros Hm. apply Hc. apply member_cons. right. exact Hm.
Qed.

(** The set built by the first loop: no repetition, and the members of the
    polygon. *)
Lemma unique_coords_spec (ring acc : list coordinate) :
  distinct acc ->
  distinct (fold_left (fun s c => set_add c s) ring acc)
  /\ forall c, member c (fold_left (fun s c => set_add c s) ring acc)
               <-> member c acc \/ member c ring.
Proof.
  revert acc. induction ring as [|a ring IH]; intros acc Hd; cbn [fold_left].
  - split; [exact Hd|]. intros c. split; [auto|].
    intros [H|H]; [exact H|]. destruct (member_nil _ H).
  - unfold set_add at 2 4. destruct (existsb (coord_eqb a) acc) eqn:E.
    + apply existsb_member in E. destruct (IH acc Hd) as [H1 H2].
      split; [exact H1|]. intros c. rewrite H2, member_cons. split.
      * intros [H|H]; auto.
      * intros [H|[H|H]]; auto. left. eapply member_eq; eassumption.
    + assert (Hn : ~ member a acc).
      { intros Hm. apply existsb_member in Hm. congruence. }
      destruct (IH (acc ++ [a])%list (distinct_snoc _ _ Hd Hn)) as [H1 H2].
      split; [exact H1|]. intros c. rewrite H2, member_app, !member_cons. split.
      * intros [[H|[H|H]]|H]; auto. destruct (member_nil _ H).
      * intros [H|[H|H]]; auto.
Qed.

Lemma sums_fold (u : list coordinate) (a b : Q) :
  fst (fold_left (fun '(lat_sum, lon_sum) c => (lat_sum + snd c, lon_sum + fst c)) u (a, b))
  == a + sum_lat u
  /\ snd (fold_left (fun '(lat_sum, lon_sum) c => (lat_sum + snd c, lon_sum + fst c)) u (a, b))
     == b + sum_lon u.
Proof.
  revert a b. induction u as [|c u IH]; intros a b; cbn [fold_left sum_lat sum_lon fold_right].
  - cbn [fst snd]. split; ring.
  - destruct (IH (a + snd c) (b + fst c)) as [H1 H2].
    rewrite H1, H2. unfold sum_lat, sum_lon. split; ring.
Qed.

Lemma sum_middle (l1 : list coordinate) (a : coordinate) (l2 : list coordinate) :
  sum_lat (l1 ++ a :: l2) == snd a + sum_lat (l1 ++ l2)
  /\ sum_lon (l1 ++ a :: l2) == fst a + sum_lon (l1 ++ l2).
Proof.
  unfold sum_lat, sum_lon.
  induction l1 as [|b l1 [IH1 IH2]]; cbn [app fold_right].
  - split; reflexivity.
  - rewrite IH1, IH2. split; ring.
Qed.

(** Two lists without repetition that have the same members have the same
    length and the same sums: the order a set is walked in does not matter. *)
Lemma same_members_same_sums (u : list coordinate) :
  forall v : list coordinate,
    distinct u -> distinct v ->
    (forall c, member c u <-> member c v) ->
    List.length u = List.length v
    /\ sum_lat u == sum_lat v
    /\ sum_lon u == sum_lon v.
Proof.
  induction u as [|a u IH]; intros v Hu Hv Hsame.
  - destruct v as [|b v].
    + repeat split; reflexivity.
    + exfalso. apply (member_nil b). apply Hsame. apply member_cons. left.
      apply coord_eq_refl.
  - inversion Hu as [|a0 u0 Ha Hu']; subst.
    assert (Hav : member a v).
    { apply Hsame. apply member_cons. left. apply coord_eq_refl. }
    destruct Hav as (a' & Hin & Haa').
    apply in_split in Hin. destruct Hin as (v1 & v2 & ->).
    destruct (distinct_middle _ _ _ Hv) as [Hna' Hv'].
    assert (Hsame' : forall c, member c u <-> member c (v1 ++ v2)).
    { intros c. split; intros Hc.
      - assert (Hcv : member c (v1 ++ a' :: v2)).
        { apply Hsame. apply member_cons. right. exact Hc. }
        apply member_app in Hcv. apply member_app.
        destruct Hcv as [Hcv|Hcv]; [left; exact Hcv|].
        apply member_cons in Hcv. destruct Hcv as [Hca'|Hcv]; [|right; exact Hcv].
        exfalso. apply Ha. apply (member_eq a c); [|exact Hc].
        eapply coord_eq_trans; [exact Haa'|]. apply coord_eq_sym. exact Hca'.
      - assert (Hcu : member c (a :: u)).
        { apply Hsame. apply member_app in Hc. apply member_app.
          destruct Hc as [Hc|Hc]; [left; exact Hc|right].
          apply member_cons. right. exact Hc. }
        apply member_cons in Hcu. destruct Hcu as [Hca|Hcu]; [|exact Hcu].
        exfalso. apply Hna'. apply (member_eq a' c); [|exact Hc].
        eapply coord_eq_trans; [apply coord_eq_sym; exact Haa'|].
        apply coord_eq_sym. exact Hca. }
    destruct (IH (v1 ++ v2)%list Hu' Hv' Hsame') as (Hlen & Hlat & Hlon).
    destruct (sum_middle v1 a' v2) as [Hm1 Hm2].
    destruct Haa' as [Hfst Hsnd].
    repeat split.
    + rewrite length_app. cbn [List.length]. rewrite length_app in Hlen. lia.
    + rewrite Hm1. unfold sum_lat at 1. cbn [fold_right]. fold (sum_lat u).
      rewrite Hlat, Hsnd. reflexivity.
    + rewrite Hm2. unfold sum_lon at 1. cbn [fold_right]. fold (sum_lon u).
      rewrite Hlon, Hfst. reflexivity.
Qed.

(** C6.  For a polygon with at least one vertex the function answers
    (mean latitude, mean longitude) over the vertices taken once each:
    a list without repetition that has the members of the polygon exists,
    and over every such list, in whatever order, the answer is the mean of
    the latitudes and the mean of the longitudes. *)
Theorem centroid_any_order (forecast_data : forecast) (polygon_coords : list coordinate)
    (others : list (list coordinate)) :
  coordinates forecast_data = polygon_coords :: others ->
  polygon_coords <> [] ->
  exists avg_lat avg_lon,
    determine_forecast_location forecast_data = inr (avg_lat, avg_lon)
    /\ (exists u, distinct u /\ forall c, member c u <-> member c polygon_coords)
    /\ forall u,
         distinct u ->
         (forall c, member c u <-> member c polygon_coords) ->
         avg_lat == mean_lat u /\ avg_lon == mean_lon u.
Proof.
  intros Hcoords Hne.
  unfold determine_forecast_location, index. rewrite Hcoords. cbn [nth_error bind ret].
  destruct (unique_coords_spec polygon_coords [] distinct_nil) as [Hd Hm].
  remember (fold_left (fun s c => set_add c s) polygon_coords []) as unique_coords
    eqn:Eu. clear Eu.
  assert (Hmem : forall c, member c unique_coords <-> member c polygon_coords).
  { intros c. rewrite Hm. split; [|auto].
    intros [H|H]; [destruct (member_nil _ H)|exact H]. }
  clear Hm.
  pose proof (sums_fold unique_coords 0 0) as Hsums.
  match goal with
  | |- context [fold_left ?f unique_coords (0, 0)] =>
      destruct (fold_left f unique_coords (0, 0)) as [lat_sum lon_sum]
  end.
  cbn [fst snd] in Hsums. destruct Hsums as [Hlat Hlon].
  assert (Hlen : exists k, List.length unique_coords = S k).
  { destruct unique_coords as [|c0 cs]; [|exists (List.length cs); reflexivity].
    exfalso. destruct polygon_coords as [|c ring]; [congruence|].
    apply (member_nil c). apply Hmem. apply member_cons. left. apply coord_eq_refl. }
  destruct Hlen as [k Hk]. rewrite Hk. rewrite <- Hk.
  eexists _, _. split; [reflexivity|]. split.
  - exists unique_coords. split; assumption.
  - intros u Hu Hsame.
    assert (Hboth : forall c, member c unique_coords <-> member c u).
    { intros c. rewrite Hmem, Hsame. reflexivity. }
    destruct (same_members_same_sums unique_coords u Hd Hu Hboth) as (Hlen & Hsl & Hso).
    unfold mean_lat, mean_lon. rewrite <- Hlen, <- Hsl, <- Hso, Hlat, Hlon.
    split; apply Qdiv_comp; try reflexivity; ring.
Qed.

(** The square of the specification, closed by its first vertex: (1, 1). *)
Lemma centroid_any_order_witness :
  exists avg_lat avg_lon,
    determine_forecast_location sample_forecast = inr (avg_lat, avg_lon)
    /\ (exists u, distinct u /\ forall c, member c u <-> member c sample_square)
    /\ forall u,
         distinct u ->
         (forall c, member c u <-> member c sample_square) ->
         avg_lat == mean_lat u /\ avg_lon == mean_lon u.
Proof.
  apply (centroid_any_order sample_forecast sample_square []).
  - reflexivity.
  - discriminate.
Defined.

Example centroid_of_square :
  exists avg_lat avg_lon,
    determine_forecast_location sample_forecast = inr (avg_lat, avg_lon)
    /\ avg_lat == 1 /\ avg_lon == 1.
Proof. eexists _, _. split; [vm_compute; reflexivity|]. split; reflexivity. Qed.

(** * The calendar *)

Lemma valid_datetime_fields (dt : datetime) :
  valid_datetime dt = true ->
  (1 <= year dt <= 9999
   /\ 1 <= month dt <= 12
   /\ 1 <= day dt <= days_in_month (year dt) (month dt)
   /\ 0 <= hour dt <= 23
   /\ 0 <= minute dt <= 59
   /\ 0 <= second dt <= 59
   /\ -86400 < utcoffset dt < 86400)%Z.
Proof.
  unfold valid_datetime. rewrite !andb_true_iff, !Z.leb_le, !Z.ltb_lt. lia.
Qed.

Lemma fields_valid_datetime (dt : datetime) :
  (1 <= year dt <= 9999
   /\ 1 <= month dt <= 12
   /\ 1 <= day dt <= days_in_month (year dt) (month dt)
   /\ 0 <= hour dt <= 23
   /\ 0 <= minute dt <= 59
   /\ 0 <= second dt <= 59
   /\ -86400 < utcoffset dt < 86400)%Z ->
  valid_datetime dt = true.
Proof.
  unfold valid_datetime. rewrite !andb_true_iff, !Z.leb_le, !Z.ltb_lt. lia.
Qed.

Lemma is_leap_spec (y : Z) :
  is_leap y = true
  <-> (y mod 4 = 0 /\ (y mod 100 <> 0 \/ y mod 400 = 0))%Z.
Proof.
  unfold is_leap.
  rewrite andb_true_iff, orb_true_iff, negb_true_iff, !Z.eqb_eq, Z.eqb_neq.
  reflexivity.
Qed.

Lemma days_before_year_succ (y : Z) :
  days_before_year (y + 1)
  = (days_before_year y + 365 + (if is_leap y then 1 else 0))%Z.
Proof.
  unfold days_before_year. cbv zeta.
  replace (y + 1 - 1)%Z with y by lia.
  destruct (is_leap y) eqn:E.
  - apply is_leap_spec in E. Z.div_mod_to_equations. lia.
  - assert (H : ~ (y mod 4 = 0 /\ (y mod 100 <> 0 \/ y mod 400 = 0))%Z).
    { intros H. apply is_leap_spec in H. congruence. }
    Z.div_mod_to_equations. lia.
Qed.

Lemma month_cases (m : Z) :
  (1 <= m <= 12)%Z ->
  (m = 1 \/ m = 2 \/ m = 3 \/ m = 4 \/ m = 5 \/ m = 6
   \/ m = 7 \/ m = 8 \/ m = 9 \/ m = 10 \/ m = 11 \/ m = 12)%Z.
Proof. lia. Qed.

Ltac each_month H :=
  apply month_cases in H;
  destruct H as [->|[->|[->|[->|[->|[->|[->|[->|[->|[->|[->| ->]]]]]]]]]]].

Ltac calc :=
  cbn [Z.add Z.sub Z.opp Z.pos_sub Pos.add Pos.succ Pos.pred_double Pos.add_carry
       Pos.pred Z.ltb Z.compare Pos.compare Pos.compare_cont andb
       Z.succ_double Z.pred_double Z.double] in *.

(** The day after a date is a date, one day later. *)
Lemma next_day_spec (y m d : Z) :
  (1 <= m <= 12)%Z -> (1 <= d <= days_in_month y m)%Z ->
  let '(y', m', d') := next_day y m d in
  (ymd2ord y' m' d' = ymd2ord y m d + 1
   /\ 1 <= m' <= 12 /\ 1 <= d' <= days_in_month y' m'
   /\ y <= y' <= y + 1)%Z.
Proof.
  intros Hm Hd. unfold next_day.
  each_month Hm;
    unfold days_in_month in *; cbv iota beta in *;
    destruct (is_leap y) eqn:El;
    match goal with
    | |- context [(d <? ?k)%Z] => destruct (Z.ltb_spec d k)
    end;
    calc;
    unfold ymd2ord, days_before_month, days_in_month;
    try rewrite days_before_year_succ;
    rewrite ?El; calc;
    try (destruct (is_leap (y + 1)));
    lia.
Qed.

(** The day before a date is a date, one day earlier. *)
Lemma prev_day_spec (y m d : Z) :
  (1 <= m <= 12)%Z -> (1 <= d <= days_in_month y m)%Z ->
  let '(y', m', d') := prev_day y m d in
  (ymd2ord y' m' d' = ymd2ord y m d - 1
   /\ 1 <= m' <= 12 /\ 1 <= d' <= days_in_month y' m'
   /\ y - 1 <= y' <= y)%Z.
Proof.
  intros Hm Hd. unfold prev_day.
  pose proof (days_before_year_succ (y - 1)) as Hy.
  replace (y - 1 + 1)%Z with y in Hy by lia.
  each_month Hm;
    unfold days_in_month in *; cbv iota beta in *;
    destruct (is_leap y) eqn:El;
    destruct (Z.ltb_spec 1 d);
    calc;
    unfold ymd2ord, days_before_month, days_in_month;
    rewrite ?El; calc;
    try (destruct (is_leap (y - 1)));
    lia.
Qed.

Lemma seconds_split (t : Z) :
  (0 <= t < 86400)%Z ->
  (0 <= t / 3600 <= 23
   /\ 0 <= t mod 3600 / 60 <= 59
   /\ 0 <= t mod 60 <= 59
   /\ t / 3600 * 3600 + t mod 3600 / 60 * 60 + t mod 60 = t)%Z.
Proof. intros H. Z.div_mod_to_equations. lia. Qed.

(** The conversion to UTC of a timestamp of the years 2..9998 succeeds and
    gives a timestamp of offset zero at the same instant. *)
Lemma astimezone_utc_spec (dt : datetime) :
  valid_datetime dt = true ->
  (1 < year dt < 9999)%Z ->
  exists u,
    astimezone_utc dt = inr u
    /\ valid_datetime u = true
    /\ utcoffset u = 0%Z
    /\ instant u = instant dt
    /\ (year dt - 1 <= year u <= year dt + 1)%Z.
Proof.
  intros Hv Hy. apply valid_datetime_fields in Hv.
  destruct Hv as (_ & Hm & Hd & Hh & Hmi & Hs & Ho).
  unfold astimezone_utc.
  set (secs := (hour dt * 3600 + minute dt * 60 + second dt - utcoffset dt)%Z).
  assert (Hsecs : (-86400 < secs < 2 * 86400)%Z) by (unfold secs; lia).
  destruct (Z.ltb_spec secs 0) as [Hneg|Hpos].
  - pose proof (prev_day_spec (year dt) (month dt) (day dt) Hm Hd) as Hp.
    destruct (prev_day (year dt) (month dt) (day dt)) as [[y' m'] d'].
    destruct Hp as (Hord & Hm' & Hd' & Hy').
    destruct (seconds_split (secs + 86400)) as (H1 & H2 & H3 & H4); [lia|].
    replace ((1 <=? y') && (y' <=? 9999))%Z with true
      by (symmetry; apply andb_true_iff; rewrite !Z.leb_le; lia).
    eexists. split; [reflexivity|].
    split; [apply fields_valid_datetime; cbn [year month day hour minute second utcoffset]; lia|].
    split; [reflexivity|].
    split; [|cbn [year]; lia].
    unfold instant. cbn [year month day hour minute second utcoffset].
    rewrite Hord. fold secs. lia.
  - destruct (Z.leb_spec 86400 secs) as [Hbig|Hsmall].
    + pose proof (next_day_spec (year dt) (month dt) (day dt) Hm Hd) as Hp.
      destruct (next_day (year dt) (month dt) (day dt)) as [[y' m'] d'].
      destruct Hp as (Hord & Hm' & Hd' & Hy').
      destruct (seconds_split (secs - 86400)) as (H1 & H2 & H3 & H4); [lia|].
      replace ((1 <=? y') && (y' <=? 9999))%Z with true
        by (symmetry; apply andb_true_iff; rewrite !Z.leb_le; lia).
      eexists. split; [reflexivity|].
      split; [apply fields_valid_datetime; cbn [year month day hour minute second utcoffset]; lia|].
      split; [reflexivity|].
      split; [|cbn [year]; lia].
      unfold instant. cbn [year month day hour minute second utcoffset].
      rewrite Hord. fold secs. lia.
    + destruct (seconds_split secs) as (H1 & H2 & H3 & H4); [lia|].
      replace ((1 <=? year dt) && (year dt <=? 9999))%Z with true
        by (symmetry; apply andb_true_iff; rewrite !Z.leb_le; lia).
      eexists. split; [reflexivity|].
      split; [apply fields_valid_datetime; cbn [year month day hour minute second utcoffset]; lia|].
      split; [reflexivity|].
      split; [|cbn [year]; lia].
      unfold instant. cbn [year month day hour minute second utcoffset].
      fold secs. lia.
Qed.

(** * The text of an answer *)

Lemma digit_of_digit_char (d : Z) : digit_of (digit_char d) = Some (d mod 10)%Z.
Proof.
  unfold digit_of, digit_char.
  pose proof (Z.mod_pos_bound d 10 ltac:(lia)) as Hr.
  rewrite N_ascii_embedding by lia.
  rewrite Z2N.id by lia.
  replace ((48 <=? 48 + d mod 10) && (48 + d mod 10 <=? 57))%Z with true
    by (symmetry; apply andb_true_iff; rewrite !Z.leb_le; lia).
  f_equal. lia.
Qed.

Lemma is_digit_digit_char (d : Z) : is_digit (digit_char d) = true.
Proof. unfold is_digit. rewrite digit_of_digit_char. reflexivity. Qed.

Lemma two_digits_pad (n : Z) :
  (0 <= n < 100)%Z -> two_digits (digit_char (n / 10)) (digit_char n) = Some n.
Proof.
  intros H. unfold two_digits. rewrite !digit_of_digit_char. f_equal.
  Z.div_mod_to_equations. lia.
Qed.

Lemma four_digits_pad (n : Z) :
  (0 <= n < 10000)%Z ->
  four_digits (digit_char (n / 1000)) (digit_char (n / 100))
    (digit_char (n / 10)) (digit_char n) = Some n.
Proof.
  intros H. unfold four_digits, two_digits. rewrite !digit_of_digit_char. f_equal.
  Z.div_mod_to_equations. lia.
Qed.

(** [strftime] writes the layout [YYYY-MM-DDTHH:MM:SSZ]. *)
Lemma strftime_shape (u : datetime) : utc_shape (strftime u) = true.
Proof.
  unfold utc_shape, strftime, pad4, pad2.
  cbn [append list_ascii_of_string]. cbv beta iota.
  cbn [forallb]. rewrite !is_digit_digit_char. reflexivity.
Qed.

(** What [strftime] writes for a UTC timestamp reads back as that timestamp. *)
Lemma strftime_read (u : datetime) :
  valid_datetime u = true -> utcoffset u = 0%Z -> read_utc (strftime u) = Some u.
Proof.
  intros Hv Ho. apply valid_datetime_fields in Hv.
  destruct Hv as (Hy & Hm & Hd & Hh & Hmi & Hs & _).
  assert (Hd' : (1 <= day u <= 31)%Z).
  { pose proof Hm as Hm'. revert Hd. unfold days_in_month.
    each_month Hm'; destruct (is_leap (year u)); lia. }
  unfold read_utc, strftime, pad4, pad2.
  cbn [append list_ascii_of_string]. cbv beta iota.
  rewrite four_digits_pad by lia. rewrite !two_digits_pad by lia.
  destruct u as [y m d h i s o]. cbn [utcoffset] in Ho. subst o. reflexivity.
Qed.

(** * The text of a value *)

Lemma digits_value_snoc (ds : list Z) (d : Z) :
  digits_value (ds ++ [d]) = (10 * digits_value ds + d)%Z.
Proof. unfold digits_value. rewrite fold_left_app. reflexivity. Qed.

(** With fuel above the binary size of [n], the digits are those of [n]. *)
Lemma digits_of_value (fuel : nat) :
  forall n : Z,
    (0 <= n < 2 ^ Z.of_nat fuel)%Z ->
    (1 <= fuel)%nat ->
    digits_value (digits_of fuel n) = n
    /\ Forall (fun d => 0 <= d <= 9)%Z (digits_of fuel n)
    /\ digits_of fuel n <> [].
Proof.
  induction fuel as [|fuel IH]; intros n Hn Hfuel; [lia|].
  cbn [digits_of]. destruct (Z.ltb_spec n 10) as [Hsmall|Hbig].
  - split; [|split].
    + unfold digits_value. cbn [fold_left]. lia.
    + constructor; [lia|constructor].
    + discriminate.
  - assert (Hq : (0 <= n / 10 < 2 ^ Z.of_nat fuel)%Z).
    { rewrite Nat2Z.inj_succ, Z.pow_succ_r in Hn by lia.
      split; [apply Z.div_pos; lia|].
      apply Z.div_lt_upper_bound; lia. }
    assert (Hfuel' : (1 <= fuel)%nat).
    { destruct fuel; [|lia]. cbn in Hq. Z.div_mod_to_equations. lia. }
    destruct (IH _ Hq Hfuel') as (Hval & Hrange & _).
    split; [|split].
    + rewrite digits_value_snoc, Hval. Z.div_mod_to_equations. lia.
    + apply Forall_app. split; [exact Hrange|].
      constructor; [|constructor]. Z.div_mod_to_equations. lia.
    + intros H. apply app_eq_nil in H. destruct H as [_ H]. discriminate.
Qed.

Lemma string_of_Z_digits (n : Z) :
  (0 <= n)%Z ->
  exists ds,
    string_of_Z n = string_of_digits ds
    /\ digits_value ds = n
    /\ Forall (fun d => 0 <= d <= 9)%Z ds
    /\ ds <> [].
Proof.
  intros Hn. unfold string_of_Z.
  exists (digits_of (S (Z.to_nat (Z.log2 n))) n).
  split; [reflexivity|]. apply digits_of_value; [|lia].
  split; [exact Hn|].
  rewrite Nat2Z.inj_succ, Z2Nat.id by apply Z.log2_nonneg.
  destruct (Z.eq_dec n 0) as [->|Hnz]; [reflexivity|].
  apply Z.log2_spec. lia.
Qed.

Lemma span_digits_string_of_digits (ds : list Z) (r : string) :
  Forall (fun d => 0 <= d <= 9)%Z ds ->
  span_digits (string_of_digits ds ++ String "." r) = (ds, String "." r).
Proof.
  induction 1 as [|d ds Hd _ IH].
  - reflexivity.
  - cbn [string_of_digits append span_digits].
    rewrite digit_of_digit_char, IH. rewrite Z.mod_small by lia. reflexivity.
Qed.

Lemma strip_sign_digit (c : ascii) (r : string) :
  is_digit c = true -> strip_sign (String c r) = (1%Z, String c r).
Proof.
  destruct c as [[] [] [] [] [] [] [] []]; intros H; try discriminate H; reflexivity.
Qed.

Lemma round_half_even_near (x : Q) :
  0 <= x ->
  (0 <= round_half_even x)%Z
  /\ Qabs (inject_Z (round_half_even x) - x) <= 1 # 2.
Proof.
  destruct x as [n d]. unfold Qle at 1. cbn [Qnum Qden]. intros Hx.
  assert (Hn : (0 <= n)%Z) by lia.
  unfold round_half_even. cbn [Qnum Qden].
  pose proof (Z.div_mod n (Zpos d) ltac:(lia)) as Hdm.
  pose proof (Z.mod_pos_bound n (Zpos d) ltac:(lia)) as Hr.
  assert (Hf : (0 <= n / Zpos d)%Z) by (apply Z.div_pos; lia).
  set (f := (n / Zpos d)%Z) in *. set (r := (n mod Zpos d)%Z) in *.
  assert (Hcases :
    forall k, (k = f /\ 2 * r <= Zpos d \/ k = f + 1 /\ Zpos d <= 2 * r)%Z ->
      (0 <= k)%Z /\ Qabs (inject_Z k - (n # d)) <= 1 # 2).
  { intros k Hk. split; [lia|].
    apply Qabs_Qle_condition.
    unfold Qle, Qminus, Qplus, Qopp, inject_Z. cbn [Qnum Qden].
    rewrite ?Pos2Z.inj_mul. nia. }
  apply Hcases.
  destruct (2 * r ?= Zpos d)%Z eqn:E.
  - apply Z.compare_eq in E. destruct (Z.even f); [left|right]; lia.
  - rewrite Z.compare_lt_iff in E. left. lia.
  - rewrite Z.compare_gt_iff in E. right. lia.
Qed.

Lemma drop_minus_digit (c : ascii) (r : string) :
  is_digit c = true -> drop_minus (String c r) = String c r.
Proof.
  destruct c as [[] [] [] [] [] [] [] []]; intros H; try discriminate H; reflexivity.
Qed.

Lemma span_digits_pad4 (n : Z) :
  (0 <= n < 10000)%Z ->
  exists fp,
    span_digits (pad4 n) = (fp, "")
    /\ List.length fp = 4%nat
    /\ digits_value fp = n.
Proof.
  intros Hn. unfold pad4. cbn [span_digits]. rewrite !digit_of_digit_char.
  eexists. split; [reflexivity|]. split; [reflexivity|].
  unfold digits_value. cbn [fold_left]. Z.div_mod_to_equations. lia.
Qed.

(** The text [format_4f] writes has the layout of [fixed4_shape] and reads
    as a number within half of 1/10000 of the value. *)
Lemma format_4f_spec (v : Q) :
  exists value q,
    format_4f (Some v) = inr value
    /\ fixed4_shape value = true
    /\ parse_float value = Some q
    /\ Qabs (q - v) <= 1 # 20000.
Proof.
  unfold format_4f.
  assert (Hx : 0 <= Qabs v * 10000).
  { apply Qmult_le_0_compat; [apply Qabs_nonneg|discriminate]. }
  destruct (round_half_even_near _ Hx) as [Hn Hnear].
  set (n := round_half_even (Qabs v * 10000)) in *.
  pose proof (Z.div_mod n 10000 ltac:(lia)) as Hdm.
  pose proof (Z.mod_pos_bound n 10000 ltac:(lia)) as Hfr.
  assert (Hip : (0 <= n / 10000)%Z) by (apply Z.div_pos; lia).
  destruct (string_of_Z_digits _ Hip) as (ds & Hstr & Hval & Hrange & Hne).
  destruct (span_digits_pad4 _ Hfr) as (fp & Hspan & Hlen & Hfp).
  rewrite Hstr.
  destruct ds as [|d0 ds']; [congruence|]. clear Hne.
  pose proof (span_digits_string_of_digits (d0 :: ds') (pad4 (n mod 10000)) Hrange) as Hsd.
  assert (Hq : inject_Z n == inject_Z (n / 10000) * 10000 + inject_Z (n mod 10000)).
  { rewrite Hdm at 1. rewrite inject_Z_plus, inject_Z_mult. ring. }
  apply Qabs_Qle_condition in Hnear.
  assert (Hshape : forall body,
            body = string_of_digits (d0 :: ds') ++ "." ++ pad4 (n mod 10000) ->
            (let '(ip, r) := span_digits body in
             match ip, list_ascii_of_string r with
             | _ :: _, ["."; a; b; c; d]%char => forallb is_digit [a; b; c; d]
             | _, _ => false
             end) = true).
  { intros body ->. cbn [append] in Hsd |- *. rewrite Hsd.
    unfold pad4. cbn [list_ascii_of_string forallb].
    rewrite !is_digit_digit_char. reflexivity. }
  assert (Hparse : forall body,
            body = string_of_digits (d0 :: ds') ++ "." ++ pad4 (n mod 10000) ->
            (let '(ip, r) := span_digits body in
             match r with
             | EmptyString => match ip with [] => None | _ => Some (inject_Z 0) end
             | String "." r' =>
                 let '(fp, r'') := span_digits r' in
                 match r'', (ip ++ fp)%list with
                 | EmptyString, _ :: _ =>
                     Some (inject_Z (digits_value ip)
                           + inject_Z (digits_value fp)
                             / inject_Z (10 ^ Z.of_nat (List.length fp)))
                 | _, _ => None
                 end
             | _ => None
             end)
            = Some (inject_Z (n / 10000) + inject_Z (n mod 10000) / inject_Z (10 ^ 4))).
  { intros body ->. cbn [append] in Hsd |- *. rewrite Hsd. rewrite Hspan.
    cbn [app]. rewrite Hval, Hfp, Hlen. reflexivity. }
  destruct (Qlt_bool v 0) eqn:Esign.
  - apply Qlt_bool_iff in Esign.
    eexists _, _. split; [reflexivity|].
    split; [|split].
    + cbn [append]. unfold fixed4_shape. cbn [drop_minus]. apply Hshape. reflexivity.
    + cbn [append]. unfold parse_float. cbn [strip_sign].
      specialize (Hparse _ eq_refl). cbn [append] in Hparse, Hsd.
      rewrite Hsd in Hparse |- *. rewrite Hspan in Hparse |- *.
      cbn [app] in Hparse |- *. reflexivity.
    + rewrite Hval, Hfp, Hlen.
      rewrite (Qabs_neg v) in Hnear by (apply Qlt_le_weak; exact Esign).
      apply Qabs_Qle_condition.
      change (inject_Z (10 ^ Z.of_nat 4)) with 10000.
      change (inject_Z (-1)) with (-1).
      unfold Qdiv. change (/ 10000) with (1 # 10000).
      split; lra.
  - apply Qlt_bool_false in Esign.
    eexists _, _. split; [reflexivity|].
    cbn [append string_of_digits].
    split; [|split].
    + unfold fixed4_shape. rewrite drop_minus_digit by apply is_digit_digit_char.
      apply (Hshape _ eq_refl).
    + unfold parse_float. rewrite strip_sign_digit by apply is_digit_digit_char.
      specialize (Hparse _ eq_refl). cbn [append string_of_digits] in Hparse, Hsd.
      rewrite Hsd in Hparse |- *. rewrite Hspan in Hparse |- *.
      cbn [app] in Hparse |- *. reflexivity.
    + rewrite Hval, Hfp, Hlen.
      rewrite (Qabs_pos v) in Hnear by exact Esign.
      apply Qabs_Qle_condition.
      change (inject_Z (10 ^ Z.of_nat 4)) with 10000.
      change (inject_Z 1) with 1.
      unfold Qdiv. change (/ 10000) with (1 # 10000).
      split; lra.
Qed.

Lemma fromisoformat_valid (s : string) (dt : datetime) :
  fromisoformat s = inr dt -> valid_datetime dt = true.
Proof.
  unfold fromisoformat. destruct (iso_fields s) as [dt'|]; [|discriminate].
  destruct (valid_datetime dt') eqn:E; [|discriminate].
  intros H. inversion H. subst dt'. exact E.
Qed.

Lemma collect_in (value : period -> py Q) (ps : list period) (items : list (Q * string))
    (v : Q) (ts : string) :
  collect value ps = inr items -> In (v, ts) items ->
  exists p, In p ps /\ startTime p = ts.
Proof.
  revert items. induction ps as [|p ps IH]; intros items Hc Hin; cbn [collect] in Hc.
  - inversion Hc. subst items. destruct Hin.
  - destruct (value p) as [e|v0]; cbn [bind] in Hc; [discriminate|].
    destruct (collect value ps) as [e|rest]; cbn [bind ret] in Hc; [discriminate|].
    inversion Hc. subst items. destruct Hin as [Hin|Hin].
    + inversion Hin. exists p. split; [left|]; reflexivity.
    + destruct (IH rest eq_refl Hin) as (q & Hq & Hts). exists q. split; [right|]; assumption.
Qed.

(** The pair a scan of at least one pair ends on: a pair of the sequence,
    greatest with MAX, least with MIN, the first one otherwise. *)
Lemma scan_winner (limit : string) (x : Q * string) (rest : list (Q * string)) :
  exists v ts,
    scan limit (x :: rest) = (Some v, Some ts)
    /\ In (v, ts) (x :: rest)
    /\ (limit = "MAX" -> forall y, In y (x :: rest) -> fst y <= v)
    /\ (limit = "MIN" -> forall y, In y (x :: rest) -> v <= fst y)
    /\ (limit <> "MAX" -> limit <> "MIN" -> (v, ts) = x).
Proof.
  rewrite scan_cons. destruct x as [v0 d0]. cbn [fst snd].
  destruct (String.eqb_spec limit "MAX") as [->|Hmax].
  - destruct (scan_max_from rest v0 d0) as (pre & v & d & post & Hs & Hf & Hpre & Hpost).
    exists v, d. rewrite Hf, Hs. split; [reflexivity|]. split; [apply in_elt|].
    split; [|split; [discriminate|congruence]].
    intros _ y Hy. apply in_app_or in Hy. destruct Hy as [Hy|[Hy|Hy]].
    + apply Qlt_le_weak. revert y Hy. apply Forall_forall. exact Hpre.
    + subst y. apply Qle_refl.
    + revert y Hy. apply Forall_forall. exact Hpost.
  - destruct (String.eqb_spec limit "MIN") as [->|Hmin].
    + destruct (scan_min_from rest v0 d0) as (pre & v & d & post & Hs & Hf & Hpre & Hpost).
      exists v, d. rewrite Hf, Hs. split; [reflexivity|]. split; [apply in_elt|].
      split; [discriminate|]. split; [|congruence].
      intros _ y Hy. apply in_app_or in Hy. destruct Hy as [Hy|[Hy|Hy]].
      * apply Qlt_le_weak. revert y Hy. apply Forall_forall. exact Hpre.
      * subst y. apply Qle_refl.
      * revert y Hy. apply Forall_forall. exact Hpost.
    + exists v0, d0. rewrite scan_other_from by assumption.
      split; [reflexivity|]. split; [left; reflexivity|].
      split; [congruence|]. split; [congruence|]. reflexivity.
Qed.



(** The end-to-end example of the specification, and the same hour seen
    from three other offsets. *)
Example answer_run :
  air_temperature sample_forecast "F" 2 "MAX" = inr "2023-01-01T09:00:00Z 75.0000"
  /\ _get_query_results sample_pow ["TEMPERATURE AIR F 2 MAX"] sample_forecast
     = inr ["2023-01-01T09:00:00Z 75.0000"]
  /\ humidity sample_forecast 2 "MIN" = inr "2023-01-01T08:00:00Z 40.0000%"
  /\ chance_of_precipitation sample_forecast 2 "MAX" = inr "2023-01-01T09:00:00Z 20.0000%"
  /\ _datetime_to_utc (Some "2023-01-01T09:00:00+00:00") = inr "2023-01-01T09:00:00Z"
  /\ _datetime_to_utc (Some "2023-01-01T14:30:00+05:30") = inr "2023-01-01T09:00:00Z"
  /\ _datetime_to_utc (Some "2022-12-31T23:00:00-10:00") = inr "2023-01-01T09:00:00Z".
Proof. repeat split; vm_compute; reflexivity. Qed.

(** * Further properties of the queries *)

Lemma for_each_app {A S : Type} (l1 l2 : list A) (body : A -> S -> py S) (s : S) :
  for_each (l1 ++ l2) body s = (s' <- for_each l1 body s ;; for_each l2 body s').
Proof.
  revert s. induction l1 as [|x l1 IH]; intros s; cbn [app for_each].
  - reflexivity.
  - destruct (body x s) as [e|s']; cbn [bind]; [reflexivity|apply IH].
Qed.

Lemma for_each_ext {A S : Type} (l : list A) (body1 body2 : A -> S -> py S) (s : S) :
  (forall x s', body1 x s' = body2 x s') ->
  for_each l body1 s = for_each l body2 s.
Proof.
  intros H. revert s. induction l as [|x l IH]; intros s; cbn [for_each].
  - reflexivity.
  - rewrite H. destruct (body2 x s) as [e|s']; cbn [bind]; [reflexivity|apply IH].
Qed.

(** The five loops are one loop over the value each reads. *)
Lemma metric_loop_for_each (float_pow : Q -> Q -> Q) (m : metric) (data : forecast)
    (length : Z) (limit : string) :
  metric_loop float_pow m data length limit
  = for_each (range length)
      (fun i '(target, target_datetime) =>
         p <- index (periods data) i ;;
         curr <- metric_value float_pow m p ;;
         ret (_process_curr_item curr target (startTime p) target_datetime limit))
      (None, None).
Proof. destruct m; reflexivity. Qed.

Lemma metric_query_no_period (float_pow : Q -> Q -> Q) (m : metric) (data : forecast)
    (length : Z) (limit : string) :
  (length <= 0)%Z ->
  metric_query float_pow m data length limit = inl TypeError.
Proof.
  intros Hlen. rewrite metric_query_unfold, metric_loop_for_each.
  unfold range. replace (Z.to_nat length) with O by lia. reflexivity.
Qed.

(** X1.  A window of no period, that is a length of zero or below, gives no
    answer: every query raises [TypeError]. *)
Theorem empty_window_type_error (float_pow : Q -> Q -> Q) (m : metric) (data : forecast)
    (length : Z) (limit : string) :
  (length <= 0)%Z ->
  metric_query float_pow m data length limit = inl TypeError.
Proof. apply metric_query_no_period. Qed.

Lemma empty_window_type_error_witness :
  metric_query sample_pow Wind sample_forecast (-3) "MAX" = inl TypeError.
Proof. apply (empty_window_type_error sample_pow Wind sample_forecast (-3) "MAX"). discriminate. Defined.

(** X2.  On a forecast without periods every query of the five kinds,
    whatever length it asks for, ends the run with [TypeError]. *)
Theorem empty_forecast_type_error (float_pow : Q -> Q -> Q) (m : metric) (data : forecast)
    (len limit : string) (L : Z) :
  periods data = [] ->
  no_space (scale_of m) = true ->
  no_space len = true ->
  no_space limit = true ->
  int_ len = inr L ->
  _get_query_results float_pow [query_text m len limit] data = inl TypeError.
Proof.
  intros Hempty Hscale Hlen Hlimit HL.
  rewrite (query_text_dispatch float_pow m data len limit L) by assumption.
  rewrite metric_query_no_period; [reflexivity|].
  unfold _available_num_of_time_periods. rewrite Hempty. cbn [List.length]. lia.
Qed.

Lemma empty_forecast_type_error_witness :
  _get_query_results sample_pow ["TEMPERATURE FEELS C 24 MIN"] (Forecast [] [sample_square])
  = inl TypeError.
Proof.
  apply (empty_forecast_type_error sample_pow (Feels "C") (Forecast [] [sample_square])
           "24" "MIN" 24); reflexivity.
Defined.

Lemma collect_app (value : period -> py Q) (ps1 ps2 : list period) :
  collect value (ps1 ++ ps2)
  = (items1 <- collect value ps1 ;; items2 <- collect value ps2 ;;
     ret (items1 ++ items2)%list).
Proof.
  induction ps1 as [|p ps1 IH]; cbn [app collect].
  - cbn [bind ret]. destruct (collect value ps2); reflexivity.
  - destruct (value p) as [e|v]; cbn [bind]; [reflexivity|].
    rewrite IH. destruct (collect value ps1) as [e|i1]; cbn [bind]; [reflexivity|].
    destruct (collect value ps2) as [e|i2]; reflexivity.
Qed.

(** X3.  Called with a length beyond the periods there are, a query whose
    values all read runs off the end of the list: it raises [IndexError]. *)
Theorem overrun_index_error (float_pow : Q -> Q -> Q) (m : metric) (data : forecast)
    (length : Z) (limit : string) (items : list (Q * string)) :
  (_available_num_of_time_periods data < length)%Z ->
  collect (metric_value float_pow m) (periods data) = inr items ->
  metric_loop float_pow m data length limit = inl IndexError
  /\ metric_query float_pow m data length limit = inl IndexError.
Proof.
  intros Hlen Hc.
  assert (Hloop : metric_loop float_pow m data length limit = inl IndexError).
  { rewrite metric_loop_for_each. unfold range, _available_num_of_time_periods in *.
    set (n := List.length (periods data)) in *.
    replace (Z.to_nat length) with (n + S (Z.to_nat length - S n))%nat by lia.
    rewrite seq_app, for_each_app.
    pose proof (for_each_collect (metric_value float_pow m) limit (periods data) [] []
                  (None, None)) as E.
    cbn [List.length app] in E. rewrite app_nil_r in E. fold n in E.
    rewrite E, Hc. cbn [bind ret seq for_each Nat.add].
    destruct (fold_left (step limit) items (None, None)) as [t d].
    unfold index. replace (nth_error (periods data) n) with (@None period); [reflexivity|].
    symmetry. apply nth_error_None. unfold n. lia. }
  split; [exact Hloop|].
  rewrite metric_query_unfold, Hloop. reflexivity.
Qed.

Lemma overrun_index_error_witness :
  metric_loop sample_pow Precipitation sample_forecast 3 "MAX" = inl IndexError
  /\ metric_query sample_pow Precipitation sample_forecast 3 "MAX" = inl IndexError.
Proof.
  apply (overrun_index_error sample_pow Precipitation sample_forecast 3 "MAX"
           [(10, "2023-01-01T00:00:00-08:00"); (20, "2023-01-01T01:00:00-08:00")]).
  - reflexivity.
  - reflexivity.
Defined.

Lemma collect_fails (value : period -> py Q) (ps : list period) (p : period) (e : exn) :
  In p ps -> value p = inl e -> exists e', collect value ps = inl e'.
Proof.
  induction ps as [|p0 ps IH]; intros Hin Hv; [destruct Hin|].
  cbn [collect]. destruct (value p0) as [e0|v0] eqn:E0; cbn [bind].
  - exists e0. reflexivity.
  - destruct Hin as [->|Hin]; [congruence|].
    destruct (IH Hin Hv) as [e' He']. rewrite He'. exists e'. reflexivity.
Qed.

Lemma never_a_number_float (s : string) :
  never_a_number s = true -> float_of_string s = inl ValueError.
Proof.
  destruct s as [|c r]; [reflexivity|].
  destruct c as [[] [] [] [] [] [] [] []]; intros H; try discriminate H; reflexivity.
Qed.

Lemma never_a_number_first_field (s : string) :
  never_a_number s = true ->
  exists w ws, split " " s = w :: ws /\ never_a_number w = true.
Proof.
  destruct s as [|c r]; intros H.
  - exists "", []. split; reflexivity.
  - cbn [split]. destruct (Ascii.eqb_spec c " ") as [->|_]; [discriminate H|].
    destruct (split " " r) as [|w ws]; eexists _, _; (split; [reflexivity|exact H]).
Qed.

Lemma never_a_number_wind (s : string) :
  never_a_number s = true -> _simplify_wind_speed s = inl ValueError.
Proof.
  intros H. destruct (never_a_number_first_field s H) as (w & ws & Hs & Hw).
  unfold _simplify_wind_speed, index. rewrite Hs. cbn [nth_error bind ret].
  apply never_a_number_float. exact Hw.
Qed.

(** X4.  The wind speed of every period of the window is read before
    anything is compared: one period whose wind speed text is empty or
    starts with a letter other than i, I, n, N ("calm", say) fails the
    feels-like query and the wind query with [ValueError], whatever the
    temperatures are and whichever period holds the extremum. *)
Theorem unreadable_wind_fails (float_pow : Q -> Q -> Q) (data : forecast) (scale : string)
    (length : Z) (limit : string) (p : period) :
  (length <= _available_num_of_time_periods data)%Z ->
  In p (window data length) ->
  never_a_number (windSpeed p) = true ->
  feels_like_temperature float_pow data scale length limit = inl ValueError
  /\ wind_speed data length limit = inl ValueError.
Proof.
  intros Hlen Hin Hw. apply never_a_number_wind in Hw.
  assert (H : forall m, metric_value float_pow m p = inl ValueError ->
                        metric_query float_pow m data length limit = inl ValueError).
  { intros m Hm. rewrite metric_query_unfold, metric_loop_scan by exact Hlen.
    destruct (collect_fails _ _ _ _ Hin Hm) as [e' He'].
    rewrite He'. cbn [bind]. apply collect_error in He'.
    destruct He' as (q & _ & Hq). apply metric_value_error in Hq. subst e'. reflexivity. }
  split.
  - apply (H (Feels scale)). cbn [metric_value]. unfold feels_like_curr_temp.
    rewrite Hw. reflexivity.
  - apply (H Wind). exact Hw.
Qed.

Lemma unreadable_wind_fails_witness :
  feels_like_temperature sample_pow
    (Forecast [Period "2023-01-01T00:00:00-08:00" 80 40 "5 mph" 10;
               Period "2023-01-01T01:00:00-08:00" 60 40 "calm" 10] [])
    "F" 2 "MAX" = inl ValueError
  /\ wind_speed
       (Forecast [Period "2023-01-01T00:00:00-08:00" 80 40 "5 mph" 10;
                  Period "2023-01-01T01:00:00-08:00" 60 40 "calm" 10] [])
       2 "MAX" = inl ValueError.
Proof.
  apply (unreadable_wind_fails sample_pow _ "F" 2 "MAX"
           (Period "2023-01-01T01:00:00-08:00" 60 40 "calm" 10)).
  - vm_compute. discriminate.
  - right. left. reflexivity.
  - reflexivity.
Defined.

Lemma max_from_grows (l : list (Q * string)) (v0 : Q) (d0 : string) :
  exists v d, fold_left (step "MAX") l (Some v0, Some d0) = (Some v, Some d) /\ v0 <= v.
Proof.
  destruct (scan_max_from l v0 d0) as (pre & v & d & post & Hs & Hf & Hpre & _).
  exists v, d. split; [exact Hf|].
  destruct pre as [|x pre]; cbn [app] in Hs.
  - inversion Hs. apply Qle_refl.
  - inversion Hs; subst x. inversion Hpre; subst. apply Qlt_le_weak. assumption.
Qed.

Lemma min_from_shrinks (l : list (Q * string)) (v0 : Q) (d0 : string) :
  exists v d, fold_left (step "MIN") l (Some v0, Some d0) = (Some v, Some d) /\ v <= v0.
Proof.
  destruct (scan_min_from l v0 d0) as (pre & v & d & post & Hs & Hf & Hpre & _).
  exists v, d. split; [exact Hf|].
  destruct pre as [|x pre]; cbn [app] in Hs.
  - inversion Hs. apply Qle_refl.
  - inversion Hs; subst x. inversion Hpre; subst. apply Qlt_le_weak. assumption.
Qed.

Lemma window_prefix (data : forecast) (length1 length2 : Z) :
  (length1 <= length2)%Z ->
  exists more, window data length2 = (window data length1 ++ more)%list.
Proof.
  intros H. unfold window.
  exists (skipn (Z.to_nat length1) (firstn (Z.to_nat length2) (periods data))).
  rewrite <- (firstn_skipn (Z.to_nat length1) (firstn (Z.to_nat length2) (periods data))) at 1.
  rewrite firstn_firstn. f_equal. f_equal. lia.
Qed.

(** X5.  Asking for more hours never lowers the maximum found and never
    raises the minimum found. *)
Theorem longer_window_extends (float_pow : Q -> Q -> Q) (m : metric) (data : forecast)
    (length1 length2 : Z) (items : list (Q * string)) :
  (1 <= length1 <= length2)%Z ->
  (length2 <= _available_num_of_time_periods data)%Z ->
  collect (metric_value float_pow m) (window data length2) = inr items ->
  (exists v1 d1 v2 d2,
      metric_loop float_pow m data length1 "MAX" = inr (Some v1, Some d1)
      /\ metric_loop float_pow m data length2 "MAX" = inr (Some v2, Some d2)
      /\ v1 <= v2)
  /\ (exists v1 d1 v2 d2,
      metric_loop float_pow m data length1 "MIN" = inr (Some v1, Some d1)
      /\ metric_loop float_pow m data length2 "MIN" = inr (Some v2, Some d2)
      /\ v2 <= v1).
Proof.
  intros H1 H2 Hc.
  destruct (window_prefix data length1 length2 ltac:(lia)) as [more Hmore].
  rewrite Hmore, collect_app in Hc.
  destruct (collect (metric_value float_pow m) (window data length1)) as [e|items1] eqn:E1;
    cbn [bind] in Hc; [discriminate|].
  destruct (collect (metric_value float_pow m) more) as [e|items2] eqn:E2;
    cbn [bind ret] in Hc; [discriminate|].
  inversion Hc; subst items. clear Hc.
  assert (Hw1 : (1 <= length1 <= _available_num_of_time_periods data)%Z) by lia.
  destruct (window_items_nonempty _ _ _ _ Hw1 E1) as ([v0 d0] & rest & ->).
  rewrite !metric_loop_scan by lia.
  rewrite Hmore, collect_app, E1, E2. cbn [bind ret].
  unfold scan. cbn [app fold_left]. rewrite !step_first. cbn [fst snd].
  rewrite !fold_left_app.
  split.
  - destruct (max_from_grows rest v0 d0) as (v1 & d1 & Hf1 & _).
    rewrite Hf1.
    destruct (max_from_grows items2 v1 d1) as (v2 & d2 & Hf2 & Hle).
    rewrite Hf2. exists v1, d1, v2, d2. auto.
  - destruct (min_from_shrinks rest v0 d0) as (v1 & d1 & Hf1 & _).
    rewrite Hf1.
    destruct (min_from_shrinks items2 v1 d1) as (v2 & d2 & Hf2 & Hle).
    rewrite Hf2. exists v1, d1, v2, d2. auto.
Qed.

Lemma longer_window_extends_witness :
  (exists v1 d1 v2 d2,
      metric_loop sample_pow Humidity sample_forecast 1 "MAX" = inr (Some v1, Some d1)
      /\ metric_loop sample_pow Humidity sample_forecast 2 "MAX" = inr (Some v2, Some d2)
      /\ v1 <= v2)
  /\ (exists v1 d1 v2 d2,
      metric_loop sample_pow Humidity sample_forecast 1 "MIN" = inr (Some v1, Some d1)
      /\ metric_loop sample_pow Humidity sample_forecast 2 "MIN" = inr (Some v2, Some d2)
      /\ v2 <= v1).
Proof.
  apply (longer_window_extends sample_pow Humidity sample_forecast 1 2
           [(40, "2023-01-01T00:00:00-08:00"); (55, "2023-01-01T01:00:00-08:00")]).
  - split; discriminate.
  - discriminate.
  - reflexivity.
Defined.

Lemma celsius_lt (x y : Q) : Qlt_bool (celsius x) (celsius y) = Qlt_bool x y.
Proof.
  unfold celsius. change (5 / 9) with (5 # 9).
  destruct (Qlt_bool x y) eqn:E.
  - apply Qlt_bool_iff in E. apply Qlt_bool_iff. lra.
  - apply Qlt_bool_false in E. apply Qlt_bool_false. lra.
Qed.


Lemma for_each_sim {A S : Type} (f : S -> S) (l : list A) (body1 body2 : A -> S -> py S) :
  (forall x s, body2 x (f s) = (s' <- body1 x s ;; ret (f s'))) ->
  forall s, for_each l body2 (f s) = (s' <- for_each l body1 s ;; ret (f s')).
Proof.
  intros H. induction l as [|x l IH]; intros s; cbn [for_each].
  - reflexivity.
  - rewrite H. destruct (body1 x s) as [e|s']; cbn [bind ret]; [reflexivity|apply IH].
Qed.

Lemma _process_curr_item_celsius (curr : Q) (target : option Q) (curr_datetime : string)
    (target_datetime : option string) (limit : string) :
  _process_curr_item (celsius curr) (option_map celsius target) curr_datetime
    target_datetime limit
  = in_celsius (_process_curr_item curr target curr_datetime target_datetime limit).
Proof.
  unfold _process_curr_item, in_celsius. destruct target as [t|]; cbn [option_map].
  - unfold Qgt_bool. rewrite !celsius_lt.
    destruct ((String.eqb limit "MAX" && Qlt_bool t curr)
              || (String.eqb limit "MIN" && Qlt_bool curr t)); reflexivity.
  - reflexivity.
Qed.

(** On exact numbers the loop in Celsius is the loop in any other scale
    with its value converted. *)
Lemma celsius_loops_related (float_pow : Q -> Q -> Q) (data : forecast) (scale : string)
    (length : Z) (limit : string) :
  scale <> "C" ->
  air_temperature_loop data "C" length limit
  = (st <- air_temperature_loop data scale length limit ;; ret (in_celsius st))
  /\ feels_like_temperature_loop float_pow data "C" length limit
     = (st <- feels_like_temperature_loop float_pow data scale length limit ;;
        ret (in_celsius st)).
Proof.
  intros Hscale. apply String.eqb_neq in Hscale.
  split.
  - unfold air_temperature_loop.
    apply (for_each_sim in_celsius (range length) _ _) with (s := (None, None)).
    intros i [t d]. unfold in_celsius at 1. cbn [fst snd].
    destruct (index (periods data) i) as [e|p]; cbn [bind ret]; [reflexivity|].
    rewrite Hscale. cbn [String.eqb Ascii.eqb Bool.eqb].
    rewrite _process_curr_item_celsius. reflexivity.
  - unfold feels_like_temperature_loop.
    apply (for_each_sim in_celsius (range length) _ _) with (s := (None, None)).
    intros i [t d]. unfold in_celsius at 1. cbn [fst snd].
    destruct (index (periods data) i) as [e|p]; cbn [bind ret]; [reflexivity|].
    unfold feels_like_curr_temp.
    destruct (_simplify_wind_speed (windSpeed p)) as [e|w]; cbn [bind ret]; [reflexivity|].
    rewrite Hscale. cbn [String.eqb Ascii.eqb Bool.eqb].
    rewrite _process_curr_item_celsius. reflexivity.
Qed.

Lemma converted_loop {A : Type} (loopC loopF : py (option Q * A)) (f : option Q * A -> option Q * A) :
  (forall st, fst (f st) = option_map celsius (fst st)) ->
  loopC = (st <- loopF ;; ret (f st)) ->
  (forall e, loopC = inl e <-> loopF = inl e)
  /\ (forall stF, loopF = inr stF ->
        exists stC, loopC = inr stC /\ fst stC = option_map celsius (fst stF)).
Proof.
  intros Hf ->. destruct loopF as [e0|st0]; cbn [bind ret]; split.
  - intros e. reflexivity.
  - intros stF H. discriminate H.
  - intros e. split; intros H; discriminate H.
  - intros stF H. inversion H. subst st0. exists (f stF). split; [reflexivity|apply Hf].
Qed.

(** X6.  For the two temperature queries, the loop in Celsius fails exactly
    when the loop in any other scale fails, with the same exception; and
    when they succeed, the value the Celsius loop ends on is the conversion
    of the value the other loop ends on. *)
Theorem celsius_query_converts (float_pow : Q -> Q -> Q) (data : forecast) (scale : string)
    (length : Z) (limit : string) :
  scale <> "C" ->
  ((forall e, air_temperature_loop data "C" length limit = inl e
              <-> air_temperature_loop data scale length limit = inl e)
   /\ (forall stF, air_temperature_loop data scale length limit = inr stF ->
         exists stC, air_temperature_loop data "C" length limit = inr stC
                     /\ fst stC = option_map celsius (fst stF)))
  /\ ((forall e, feels_like_temperature_loop float_pow data "C" length limit = inl e
                 <-> feels_like_temperature_loop float_pow data scale length limit = inl e)
      /\ (forall stF, feels_like_temperature_loop float_pow data scale length limit = inr stF ->
            exists stC, feels_like_temperature_loop float_pow data "C" length limit = inr stC
                        /\ fst stC = option_map celsius (fst stF))).
Proof.
  intros Hscale.
  destruct (celsius_loops_related float_pow data scale length limit Hscale) as [Ha Hf].
  split; apply (converted_loop _ _ in_celsius); try assumption; intros st; reflexivity.
Qed.

Lemma celsius_query_converts_witness :
  ((forall e, air_temperature_loop sample_forecast "C" 2 "MAX" = inl e
              <-> air_temperature_loop sample_forecast "F" 2 "MAX" = inl e)
   /\ (forall stF, air_temperature_loop sample_forecast "F" 2 "MAX" = inr stF ->
         exists stC, air_temperature_loop sample_forecast "C" 2 "MAX" = inr stC
                     /\ fst stC = option_map celsius (fst stF)))
  /\ ((forall e, feels_like_temperature_loop sample_pow sample_forecast "C" 2 "MAX" = inl e
                 <-> feels_like_temperature_loop sample_pow sample_forecast "F" 2 "MAX" = inl e)
      /\ (forall stF, feels_like_temperature_loop sample_pow sample_forecast "F" 2 "MAX" = inr stF ->
            exists stC, feels_like_temperature_loop sample_pow sample_forecast "C" 2 "MAX" = inr stC
                        /\ fst stC = option_map celsius (fst stF))).
Proof.
  apply (celsius_query_converts sample_pow sample_forecast "F" 2 "MAX"). discriminate.
Defined.

(** X7.  Only the scale "C" converts: with any other scale text, "c" and
    "K" included, the two temperature queries answer as with "F". *)
Theorem other_scale_is_fahrenheit (float_pow : Q -> Q -> Q) (data : forecast)
    (scale : string) (length : Z) (limit : string) :
  scale <> "C" ->
  air_temperature data scale length limit = air_temperature data "F" length limit
  /\ feels_like_temperature float_pow data scale length limit
     = feels_like_temperature float_pow data "F" length limit.
Proof.
  intros Hscale. apply String.eqb_neq in Hscale.
  split.
  - unfold air_temperature, air_temperature_loop. f_equal.
    apply for_each_ext. intros i [t d]. rewrite Hscale. reflexivity.
  - unfold feels_like_temperature, feels_like_temperature_loop. f_equal.
    apply for_each_ext. intros i [t d]. unfold feels_like_curr_temp.
    rewrite Hscale. reflexivity.
Qed.

Lemma other_scale_is_fahrenheit_witness :
  air_temperature sample_forecast "c" 2 "MAX" = air_temperature sample_forecast "F" 2 "MAX"
  /\ feels_like_temperature sample_pow sample_forecast "c" 2 "MAX"
     = feels_like_temperature sample_pow sample_forecast "F" 2 "MAX".
Proof.
  apply (other_scale_is_fahrenheit sample_pow sample_forecast "c" 2 "MAX"). discriminate.
Defined.

(** * Further properties of the dispatch *)

(** A query adds its answer to the answers so far and leaves those alone. *)
Lemma _query_appends (float_pow : Q -> Q -> Q) (data : forecast) (args : list string)
    (query_results : list string) :
  _query float_pow data args query_results
  = (r <- _query float_pow data args [] ;; ret (query_results ++ r)%list).
Proof.
  unfold _query.
  destruct (index args 0) as [e|arg0]; cbn [bind]; [reflexivity|].
  destruct (String.eqb arg0 "TEMPERATURE").
  - destruct (index args 1) as [e|query_type]; cbn [bind]; [reflexivity|].
    destruct (index args 2) as [e|scale]; cbn [bind]; [reflexivity|].
    destruct (index args 3) as [e|arg3]; cbn [bind]; [reflexivity|].
    destruct (int_ arg3) as [e|length]; cbn [bind]; [reflexivity|].
    destruct (index args 4) as [e|limit]; cbn [bind]; [reflexivity|].
    destruct (String.eqb query_type "AIR").
    + destruct (air_temperature data scale _ limit) as [e|r]; reflexivity.
    + destruct (String.eqb query_type "FEELS").
      * destruct (feels_like_temperature float_pow data scale _ limit) as [e|r]; reflexivity.
      * cbn [bind ret]. rewrite app_nil_r. reflexivity.
  - destruct (index args 1) as [e|arg1]; cbn [bind]; [reflexivity|].
    destruct (int_ arg1) as [e|length]; cbn [bind]; [reflexivity|].
    destruct (index args 2) as [e|limit]; cbn [bind]; [reflexivity|].
    destruct (String.eqb arg0 "HUMIDITY").
    + destruct (humidity data _ limit) as [e|r]; reflexivity.
    + destruct (String.eqb arg0 "WIND").
      * destruct (wind_speed data _ limit) as [e|r]; reflexivity.
      * destruct (String.eqb arg0 "PRECIPITATION").
        -- destruct (chance_of_precipitation data _ limit) as [e|r]; reflexivity.
        -- cbn [bind ret]. rewrite app_nil_r. reflexivity.
Qed.

Lemma _get_query_results_from (float_pow : Q -> Q -> Q) (data : forecast)
    (queries : list string) (query_results : list string) :
  for_each queries
    (fun query results => _query float_pow data (split " " query) results) query_results
  = (r <- _get_query_results float_pow queries data ;; ret (query_results ++ r)%list).
Proof.
  unfold _get_query_results. revert query_results.
  induction queries as [|q qs IH]; intros acc; cbn [for_each].
  - cbn [bind ret]. rewrite app_nil_r. reflexivity.
  - rewrite (_query_appends float_pow data (split " " q) acc).
    destruct (_query float_pow data (split " " q) []) as [e|r]; cbn [bind ret]; [reflexivity|].
    rewrite (IH (acc ++ r)%list), (IH r).
    destruct (for_each qs _ []) as [e|rs]; cbn [bind ret]; [reflexivity|].
    rewrite app_assoc. reflexivity.
Qed.

(** X8.  Answering a list of queries is answering its first part, then its
    second part, and joining the answers in that order; a failure in either
    part is the failure of the whole, with no answer kept. *)
Theorem query_results_append (float_pow : Q -> Q -> Q) (data : forecast)
    (queries1 queries2 : list string) :
  _get_query_results float_pow (queries1 ++ queries2) data
  = (r1 <- _get_query_results float_pow queries1 data ;;
     r2 <- _get_query_results float_pow queries2 data ;;
     ret (r1 ++ r2)%list).
Proof.
  unfold _get_query_results at 1. rewrite for_each_app.
  fold (_get_query_results float_pow queries1 data).
  destruct (_get_query_results float_pow queries1 data) as [e|r1]; cbn [bind]; [reflexivity|].
  apply _get_query_results_from.
Qed.

(** X9.  A query of one word, the empty line included, has no second field
    to read: it ends the run with [IndexError]. *)
Theorem one_word_query_index_error (float_pow : Q -> Q -> Q) (data : forecast)
    (query : string) :
  no_space query = true ->
  _get_query_results float_pow [query] data = inl IndexError.
Proof.
  intros H. unfold _get_query_results. cbn [for_each].
  rewrite split_no_space by exact H.
  unfold _query, index. cbn [nth_error bind ret].
  destruct (String.eqb query "TEMPERATURE"); reflexivity.
Qed.

Lemma one_word_query_index_error_witness :
  _get_query_results sample_pow [""] sample_forecast = inl IndexError.
Proof. apply (one_word_query_index_error sample_pow sample_forecast ""). reflexivity. Defined.

(** X10.  A query of an unknown kind with a length that reads is passed
    over without an answer and without an error; so is a TEMPERATURE query
    whose second word is neither AIR nor FEELS. *)
Theorem unknown_query_is_skipped (float_pow : Q -> Q -> Q) (data : forecast)
    (kind scale len limit : string) (L : Z) :
  no_space kind = true ->
  no_space scale = true ->
  no_space len = true ->
  no_space limit = true ->
  int_ len = inr L ->
  (kind <> "TEMPERATURE" -> kind <> "HUMIDITY" -> kind <> "WIND" ->
   kind <> "PRECIPITATION" ->
   _get_query_results float_pow [kind ++ " " ++ len ++ " " ++ limit] data = inr [])
  /\ (kind <> "AIR" -> kind <> "FEELS" ->
      _get_query_results float_pow
        ["TEMPERATURE " ++ kind ++ " " ++ scale ++ " " ++ len ++ " " ++ limit] data
      = inr []).
Proof.
  intros Hkind Hscale Hlen Hlimit HL.
  unfold _get_query_results. cbn [for_each]. split.
  - intros H1 H2 H3 H4. apply String.eqb_neq in H1, H2, H3, H4.
    cbn [append]. rewrite !split_field by assumption. rewrite split_no_space by assumption.
    unfold _query, index. cbn [nth_error bind ret].
    rewrite H1, HL. cbn [bind ret]. rewrite H2, H3, H4. reflexivity.
  - intros H1 H2. apply String.eqb_neq in H1, H2.
    cbn [append split Ascii.eqb Bool.eqb].
    rewrite !split_field by assumption. rewrite split_no_space by assumption.
    unfold _query, index. cbn [nth_error bind ret String.eqb Ascii.eqb Bool.eqb].
    rewrite HL. cbn [bind ret]. rewrite H1, H2. reflexivity.
Qed.

Lemma unknown_query_is_skipped_witness :
  _get_query_results sample_pow ["SNOW 3 MAX"] sample_forecast = inr []
  /\ _get_query_results sample_pow ["TEMPERATURE SNOW F 3 MAX"] sample_forecast = inr [].
Proof.
  destruct (unknown_query_is_skipped sample_pow sample_forecast "SNOW" "F" "3" "MAX" 3)
    as [H1 H2]; try reflexivity.
  split.
  - apply H1; discriminate.
  - apply H2; discriminate.
Defined.

(** * Further properties of the forecast location *)

Lemma unique_coords_subset (ring acc : list coordinate) (c : coordinate) :
  In c (fold_left (fun s c => set_add c s) ring acc) -> In c acc \/ In c ring.
Proof.
  revert acc. induction ring as [|a ring IH]; intros acc H; cbn [fold_left] in H.
  - left. exact H.
  - apply IH in H. destruct H as [H|H]; [|right; right; exact H].
    unfold set_add in H. destruct (existsb (coord_eqb a) acc); [left; exact H|].
    apply in_app_or in H. destruct H as [H|[H|[]]]; [left; exact H|right; left; exact H].
Qed.

(** The answer on a polygon of at least one vertex, by the set the first
    loop builds. *)
Lemma determine_forecast_location_mean (forecast_data : forecast)
    (polygon_coords : list coordinate) (others : list (list coordinate)) :
  coordinates forecast_data = polygon_coords :: others ->
  polygon_coords <> [] ->
  exists avg_lat avg_lon u,
    determine_forecast_location forecast_data = inr (avg_lat, avg_lon)
    /\ u <> []
    /\ distinct u
    /\ (forall c, member c u <-> member c polygon_coords)
    /\ (forall c, In c u -> In c polygon_coords)
    /\ avg_lat == mean_lat u
    /\ avg_lon == mean_lon u.
Proof.
  intros Hcoords Hne.
  unfold determine_forecast_location, index. rewrite Hcoords. cbn [nth_error bind ret].
  destruct (unique_coords_spec polygon_coords [] distinct_nil) as [Hd Hm].
  pose proof (fun c => unique_coords_subset polygon_coords [] c) as Hsub.
  remember (fold_left (fun s c => set_add c s) polygon_coords []) as u eqn:Eu. clear Eu.
  assert (Hmem : forall c, member c u <-> member c polygon_coords).
  { intros c. rewrite Hm. split; [|auto].
    intros [H|H]; [destruct (member_nil _ H)|exact H]. }
  pose proof (sums_fold u 0 0) as Hsums.
  match goal with
  | |- context [fold_left ?f u (0, 0)] =>
      destruct (fold_left f u (0, 0)) as [lat_sum lon_sum]
  end.
  cbn [fst snd] in Hsums. destruct Hsums as [Hlat Hlon].
  assert (Hlen : exists k, List.length u = S k).
  { destruct u as [|c0 cs]; [|exists (List.length cs); reflexivity].
    exfalso. destruct polygon_coords as [|c ring]; [congruence|].
    apply (member_nil c). apply Hmem. apply member_cons. left. apply coord_eq_refl. }
  destruct Hlen as [k Hk]. rewrite Hk. rewrite <- Hk.
  eexists _, _, u. split; [reflexivity|].
  split; [intros ->; discriminate|].
  split; [exact Hd|]. split; [exact Hmem|].
  split; [intros c Hc; destruct (Hsub c Hc) as [[]|H]; exact H|].
  unfold mean_lat, mean_lon. rewrite Hlat, Hlon.
  split; apply Qdiv_comp; try reflexivity; ring.
Qed.

Lemma set_add_member (c : coordinate) (s : list coordinate) :
  member c s -> set_add c s = s.
Proof.
  intros H. apply existsb_member in H. unfold set_add. rewrite H. reflexivity.
Qed.

(** X11.  A vertex that repeats an earlier vertex of the polygon, as the
    vertex that closes a ring does, changes nothing: the polygon with it and
    the polygon without it give the same result. *)
Theorem repeated_vertex_is_ignored (data1 data2 : forecast)
    (before after : list coordinate) (c : coordinate)
    (others1 others2 : list (list coordinate)) :
  coordinates data1 = (before ++ c :: after)%list :: others1 ->
  coordinates data2 = (before ++ after)%list :: others2 ->
  member c before ->
  determine_forecast_location data1 = determine_forecast_location data2.
Proof.
  intros H1 H2 Hc.
  unfold determine_forecast_location, index. rewrite H1, H2. cbn [nth_error bind ret].
  rewrite !fold_left_app. cbn [fold_left].
  destruct (unique_coords_spec before [] distinct_nil) as [_ Hm].
  assert (E : set_add c (fold_left (fun s c0 => set_add c0 s) before [])
              = fold_left (fun s c0 => set_add c0 s) before []).
  { apply set_add_member. apply Hm. right. exact Hc. }
  rewrite E. reflexivity.
Qed.

Lemma repeated_vertex_is_ignored_witness :
  determine_forecast_location
    (Forecast [] [([(0, 0); (0, 2); (2, 2); (2, 0)] ++ (0, 0) :: [])%list])
  = determine_forecast_location
      (Forecast [] [([(0, 0); (0, 2); (2, 2); (2, 0)] ++ [])%list]).
Proof.
  apply (repeated_vertex_is_ignored _ _ [(0, 0); (0, 2); (2, 2); (2, 0)] [] (0, 0) [] []).
  - reflexivity.
  - reflexivity.
  - exists (0, 0). split; [left; reflexivity|apply coord_eq_refl].
Defined.

(** X13.  The location fails in two cases only: without any polygon the
    lookup of the first one raises [IndexError], and on a first polygon
    without vertices the division by their number raises
    [ZeroDivisionError]. *)
Theorem location_failures (forecast_data : forecast) (e : exn) :
  determine_forecast_location forecast_data = inl e
  <-> (coordinates forecast_data = [] /\ e = IndexError)
      \/ (exists others, coordinates forecast_data = [] :: others /\ e = ZeroDivisionError).
Proof.
  split.
  - intros H. destruct (coordinates forecast_data) as [|ring others] eqn:Ec.
    + left. unfold determine_forecast_location, index in H. rewrite Ec in H.
      cbn [nth_error bind] in H. inversion H. auto.
    + destruct ring as [|c ring].
      * right. exists others. unfold determine_forecast_location, index in H. rewrite Ec in H.
        cbn in H. inversion H. auto.
      * exfalso.
        destruct (determine_forecast_location_mean forecast_data (c :: ring) others Ec
                    ltac:(discriminate)) as (la & lo & u & E & _).
        congruence.
  - intros [[Hc ->]|(others & Hc & ->)];
      unfold determine_forecast_location, index; rewrite Hc; reflexivity.
Qed.

(** * Further properties of the texts read and written *)

(** X14.  Of a wind speed only the text before the first blank is read:
    what follows it, the unit included, is never looked at. *)
Theorem wind_speed_first_field (s rest : string) :
  no_space s = true ->
  _simplify_wind_speed (s ++ " " ++ rest) = float_of_string s
  /\ _simplify_wind_speed s = float_of_string s.
Proof.
  intros H. unfold _simplify_wind_speed, index. split.
  - cbn [append]. rewrite split_field by exact H. reflexivity.
  - rewrite split_no_space by exact H. reflexivity.
Qed.

Lemma wind_speed_first_field_witness :
  _simplify_wind_speed ("5" ++ " " ++ "to 10 km/h") = float_of_string "5"
  /\ _simplify_wind_speed "5" = float_of_string "5".
Proof. apply (wind_speed_first_field "5" "to 10 km/h"). reflexivity. Defined.

(** * Further properties of the conversion to UTC *)

Lemma days_before_year_mono (y1 y2 : Z) :
  (y1 <= y2)%Z -> (days_before_year y1 <= days_before_year y2)%Z.
Proof.
  intros H. unfold days_before_year. cbv zeta. Z.div_mod_to_equations. lia.
Qed.

(** The day of a date within its year, between 1 and the length of the
    year. *)
Lemma day_of_year_range (y m d : Z) :
  (1 <= m <= 12)%Z -> (1 <= d <= days_in_month y m)%Z ->
  (1 <= days_before_month y m + d <= 365 + (if is_leap y then 1 else 0))%Z.
Proof.
  intros Hm Hd.
  each_month Hm; unfold days_in_month, days_before_month in *; cbv iota beta in *;
    destruct (is_leap y);
    cbn [Z.ltb Z.compare Pos.compare Pos.compare_cont andb] in *; lia.
Qed.

Lemma day_of_year_inj (y m1 d1 m2 d2 : Z) :
  (1 <= m1 <= 12)%Z -> (1 <= d1 <= days_in_month y m1)%Z ->
  (1 <= m2 <= 12)%Z -> (1 <= d2 <= days_in_month y m2)%Z ->
  (days_before_month y m1 + d1 = days_before_month y m2 + d2)%Z ->
  m1 = m2 /\ d1 = d2.
Proof.
  intros Hm1 Hd1 Hm2 Hd2.
  each_month Hm1; each_month Hm2;
    unfold days_in_month, days_before_month in *; cbv iota beta in *;
    destruct (is_leap y);
    cbn [Z.ltb Z.compare Pos.compare Pos.compare_cont andb] in *; lia.
Qed.

(** Two dates with the same day number are the same date. *)
Lemma ymd2ord_inj (y1 m1 d1 y2 m2 d2 : Z) :
  (1 <= m1 <= 12)%Z -> (1 <= d1 <= days_in_month y1 m1)%Z ->
  (1 <= m2 <= 12)%Z -> (1 <= d2 <= days_in_month y2 m2)%Z ->
  ymd2ord y1 m1 d1 = ymd2ord y2 m2 d2 ->
  y1 = y2 /\ m1 = m2 /\ d1 = d2.
Proof.
  intros Hm1 Hd1 Hm2 Hd2 Hord. unfold ymd2ord in Hord.
  pose proof (day_of_year_range y1 m1 d1 Hm1 Hd1) as R1.
  pose proof (day_of_year_range y2 m2 d2 Hm2 Hd2) as R2.
  pose proof (days_before_year_succ y1) as S1.
  pose proof (days_before_year_succ y2) as S2.
  assert (Hy : y1 = y2).
  { destruct (Z.lt_trichotomy y1 y2) as [Hlt|[Heq|Hgt]]; [|exact Heq|].
    - pose proof (days_before_year_mono (y1 + 1) y2 ltac:(lia)). lia.
    - pose proof (days_before_year_mono (y2 + 1) y1 ltac:(lia)). lia. }
  subst y2. split; [reflexivity|].
  apply (day_of_year_inj y1); try assumption. lia.
Qed.

Lemma instant_inj (u1 u2 : datetime) :
  valid_datetime u1 = true -> valid_datetime u2 = true ->
  utcoffset u1 = 0%Z -> utcoffset u2 = 0%Z ->
  instant u1 = instant u2 -> u1 = u2.
Proof.
  intros V1 V2 O1 O2 Hi.
  apply valid_datetime_fields in V1, V2.
  destruct V1 as (_ & Hm1 & Hd1 & Hh1 & Hi1 & Hs1 & _).
  destruct V2 as (_ & Hm2 & Hd2 & Hh2 & Hi2 & Hs2 & _).
  unfold instant in Hi. rewrite O1, O2 in Hi.
  assert (Hord : ymd2ord (year u1) (month u1) (day u1)
                 = ymd2ord (year u2) (month u2) (day u2)) by lia.
  destruct (ymd2ord_inj _ _ _ _ _ _ Hm1 Hd1 Hm2 Hd2 Hord) as (Ey & Em & Ed).
  assert (Eh : hour u1 = hour u2) by lia.
  assert (Emi : minute u1 = minute u2) by lia.
  assert (Es : second u1 = second u2) by lia.
  destruct u1, u2. cbn in *. congruence.
Qed.

Lemma _datetime_to_utc_parsed (ts : string) (dt : datetime) :
  fromisoformat ts = inr dt ->
  (1 < year dt < 9999)%Z ->
  exists u,
    _datetime_to_utc (Some ts) = inr (strftime u)
    /\ valid_datetime u = true /\ utcoffset u = 0%Z /\ instant u = instant dt.
Proof.
  intros Hp Hy.
  destruct (astimezone_utc_spec dt (fromisoformat_valid _ _ Hp) Hy)
    as (u & Hu & Hv & Ho & Hi & _).
  exists u. unfold _datetime_to_utc. rewrite Hp. cbn [bind]. rewrite Hu. auto.
Qed.

(** X16.  Two timestamps of the years 2 to 9998 are written as the same UTC
    text exactly when they are the same instant, whatever their offsets. *)
Theorem same_instant_same_text (ts1 ts2 : string) (dt1 dt2 : datetime) :
  fromisoformat ts1 = inr dt1 ->
  fromisoformat ts2 = inr dt2 ->
  (1 < year dt1 < 9999)%Z ->
  (1 < year dt2 < 9999)%Z ->
  _datetime_to_utc (Some ts1) = _datetime_to_utc (Some ts2)
  <-> instant dt1 = instant dt2.
Proof.
  intros Hp1 Hp2 Hy1 Hy2.
  destruct (_datetime_to_utc_parsed ts1 dt1 Hp1 Hy1) as (u1 & E1 & V1 & O1 & I1).
  destruct (_datetime_to_utc_parsed ts2 dt2 Hp2 Hy2) as (u2 & E2 & V2 & O2 & I2).
  rewrite E1, E2. split.
  - intros H. assert (Hs : strftime u1 = strftime u2) by congruence.
    pose proof (strftime_read u1 V1 O1) as R1.
    pose proof (strftime_read u2 V2 O2) as R2.
    rewrite Hs, R2 in R1. inversion R1. subst u2. congruence.
  - intros H. f_equal. f_equal. apply instant_inj; try assumption. congruence.
Qed.

Lemma same_instant_same_text_witness :
  _datetime_to_utc (Some "2023-01-01T14:30:00+05:30")
  = _datetime_to_utc (Some "2022-12-31T23:00:00-10:00")
  <-> instant (DateTime 2023 1 1 14 30 0 19800) = instant (DateTime 2022 12 31 23 0 0 (-36000)).
Proof.
  apply (same_instant_same_text "2023-01-01T14:30:00+05:30" "2022-12-31T23:00:00-10:00"
           (DateTime 2023 1 1 14 30 0 19800) (DateTime 2022 12 31 23 0 0 (-36000)));
    try reflexivity; split; reflexivity.
Defined.

(** X17.  A timestamp of a year from 1000 on that is in UTC already,
    written with the offset +00:00, comes back with its date and time of day
    unchanged and the offset replaced by Z. *)
Theorem utc_timestamp_unchanged (y m d h i s : Z) :
  (1000 <= y)%Z ->
  valid_datetime (DateTime y m d h i s 0) = true ->
  _datetime_to_utc (Some (date_time_text y m d h i s ++ "+00:00"))
  = inr (date_time_text y m d h i s ++ "Z").
Proof.
  intros _ Hv. pose proof (valid_datetime_fields _ Hv) as F.
  cbn [year month day hour minute second utcoffset] in F.
  destruct F as (Hy & Hm & Hd & Hh & Hi & Hs & _).
  assert (Hd' : (1 <= d <= 31)%Z).
  { pose proof Hm as Hm'. revert Hd. unfold days_in_month.
    each_month Hm'; destruct (is_leap y); lia. }
  unfold _datetime_to_utc, fromisoformat, iso_fields, date_time_text, pad4, pad2.
  cbn [append list_ascii_of_string]. cbv beta iota.
  rewrite four_digits_pad by lia. rewrite !two_digits_pad by lia.
  change (two_digits "0" "0") with (Some 0%Z). cbv beta iota.
  cbn [Z.leb Z.compare andb Ascii.eqb Bool.eqb Z.mul Z.add].
  rewrite Hv. cbn [bind ret].
  unfold astimezone_utc. cbn [year month day hour minute second utcoffset].
  set (secs := (h * 3600 + i * 60 + s - 0)%Z).
  assert (Hsecs : (0 <= secs < 86400)%Z) by (unfold secs; lia).
  destruct (Z.ltb_spec secs 0) as [Hneg|_]; [lia|].
  destruct (Z.leb_spec 86400 secs) as [Hbig|_]; [lia|].
  replace ((1 <=? y) && (y <=? 9999))%Z with true
    by (symmetry; apply andb_true_iff; rewrite !Z.leb_le; lia).
  replace (secs / 3600)%Z with h by (unfold secs; Z.div_mod_to_equations; lia).
  replace (secs mod 3600 / 60)%Z with i by (unfold secs; Z.div_mod_to_equations; lia).
  replace (secs mod 60)%Z with s by (unfold secs; Z.div_mod_to_equations; lia).
  reflexivity.
Qed.

Lemma utc_timestamp_unchanged_witness :
  _datetime_to_utc (Some (date_time_text 2024 2 29 23 59 59 ++ "+00:00"))
  = inr (date_time_text 2024 2 29 23 59 59 ++ "Z").
Proof. apply (utc_timestamp_unchanged 2024 2 29 23 59 59); [discriminate|reflexivity]. Defined.

(** * Reading the input and choosing the sources *)

Lemma read_queries_spec (qs : list string) (rest acc : list string) :
  ~ In "NO MORE QUERIES" qs ->
  read_queries (qs ++ "NO MORE QUERIES" :: rest) acc = Some ((acc ++ qs)%list, rest).
Proof.
  revert acc. induction qs as [|q qs IH]; intros acc Hn; cbn [app read_queries].
  - rewrite app_nil_r. reflexivity.
  - destruct (String.eqb_spec q "NO MORE QUERIES") as [->|_].
    + exfalso. apply Hn. left. reflexivity.
    + rewrite IH by (intros H; apply Hn; right; exact H).
      rewrite <- app_assoc. reflexivity.
Qed.

Lemma read_queries_inv (lines acc qs rest : list string) :
  read_queries lines acc = Some (qs, rest) ->
  exists more,
    qs = (acc ++ more)%list
    /\ lines = (more ++ "NO MORE QUERIES" :: rest)%list
    /\ ~ In "NO MORE QUERIES" more.
Proof.
  revert acc. induction lines as [|q lines IH]; intros acc H; cbn [read_queries] in H.
  - discriminate.
  - destruct (String.eqb_spec q "NO MORE QUERIES") as [->|Hq].
    + inversion H. subst. exists []. rewrite app_nil_r. repeat split. intros [].
    + destruct (IH _ H) as (more & -> & -> & Hn).
      exists (q :: more). rewrite <- app_assoc. repeat split.
      intros [Hh|Ht]; [congruence|exact (Hn Ht)].
Qed.

(** X18.  The input is read as: one line for the target, one for the
    weather, the queries up to the first line NO MORE QUERIES, one line for
    the reverse geocoding.  The function returns exactly when the input
    starts in this way; it then returns those four parts, none of the
    queries being NO MORE QUERIES, leaves the lines that follow unread and
    prints one empty line. *)
Theorem query_input_shape (c c' : console) (target weather reverse : string)
    (weather_queries : list string) :
  _get_query_input c = Some ((target, weather, weather_queries, reverse), c')
  <-> exists rest,
        stdin c = target :: weather
                  :: (weather_queries ++ "NO MORE QUERIES" :: reverse :: rest)%list
        /\ ~ In "NO MORE QUERIES" weather_queries
        /\ c' = Console rest (stdout c ++ [""]).
Proof.
  unfold _get_query_input, input, print. split.
  - intros H. destruct (stdin c) as [|t [|w lines]] eqn:Ec; cbn [stdin stdout] in H;
      try discriminate.
    destruct (read_queries lines []) as [[qs rest0]|] eqn:Er; [|discriminate].
    cbn [stdin stdout] in H. destruct rest0 as [|r rest]; [discriminate|].
    cbn [stdin stdout] in H. inversion H. subst.
    destruct (read_queries_inv _ _ _ _ Er) as (more & Hq & Hl & Hn).
    cbn [app] in Hq. subst. exists rest. auto.
  - intros (rest & Hs & Hn & ->). rewrite Hs. cbn [stdin stdout].
    rewrite read_queries_spec by exact Hn. reflexivity.
Qed.

Lemma query_input_shape_witness :
  _get_query_input
    (Console ["TARGET FILE a.json"; "WEATHER NWS"; "HUMIDITY 3 MAX"; "NO MORE QUERIES";
              "REVERSE NOMINATIM"; "left"] [])
  = Some (("TARGET FILE a.json", "WEATHER NWS", ["HUMIDITY 3 MAX"], "REVERSE NOMINATIM"),
          Console ["left"] [""]).
Proof.
  apply (query_input_shape
           (Console ["TARGET FILE a.json"; "WEATHER NWS"; "HUMIDITY 3 MAX"; "NO MORE QUERIES";
                     "REVERSE NOMINATIM"; "left"] [])).
  exists ["left"]. split; [reflexivity|]. split; [|reflexivity].
  intros [H|[]]. discriminate H.
Defined.

Lemma read_queries_eof (lines acc : list string) :
  ~ In "NO MORE QUERIES" lines -> read_queries lines acc = None.
Proof.
  revert acc. induction lines as [|q lines IH]; intros acc Hn; cbn [read_queries].
  - reflexivity.
  - destruct (String.eqb_spec q "NO MORE QUERIES") as [->|_].
    + exfalso. apply Hn. left. reflexivity.
    + apply IH. intros H. apply Hn. right. exact H.
Qed.

(** X19.  When no line after the first two is NO MORE QUERIES, the loop
    reads the input to its end and the function fails on the read that
    finds nothing ([EOFError]); it never returns with the queries read so
    far. *)
Theorem query_input_without_end (c : console) :
  ~ In "NO MORE QUERIES" (skipn 2 (stdin c)) ->
  _get_query_input c = None.
Proof.
  intros Hn. unfold _get_query_input, input.
  destruct (stdin c) as [|t [|w lines]]; try reflexivity.
  cbn [skipn stdin stdout] in *. rewrite read_queries_eof by exact Hn. reflexivity.
Qed.

Lemma query_input_without_end_witness :
  _get_query_input (Console ["TARGET FILE a.json"; "WEATHER NWS"; "HUMIDITY 3 MAX"] []) = None.
Proof.
  apply (query_input_without_end
           (Console ["TARGET FILE a.json"; "WEATHER NWS"; "HUMIDITY 3 MAX"] [])).
  intros [H|[]]. discriminate H.
Defined.

Lemma split_max_field (k : nat) (a b : string) :
  no_space a = true ->
  split_max " " (S k) (a ++ String " " b) = a :: split_max " " k b.
Proof.
  induction a as [|c r IH]; intros H.
  - reflexivity.
  - cbn [no_space] in H. apply andb_true_iff in H. destruct H as [Hc Hr].
    apply negb_true_iff in Hc. cbn [append split_max]. rewrite Hc, (IH Hr). reflexivity.
Qed.

Lemma split_max_zero (s : string) : split_max " " 0 s = [s].
Proof. destruct s; reflexivity. Qed.

Lemma split_max_no_space (k : nat) (s : string) :
  no_space s = true -> split_max " " k s = [s].
Proof.
  induction s as [|c r IH]; intros H; [reflexivity|].
  cbn [no_space] in H. apply andb_true_iff in H. destruct H as [Hc Hr].
  apply negb_true_iff in Hc. cbn [split_max]. destruct k as [|k]; [reflexivity|].
  rewrite Hc, (IH Hr). reflexivity.
Qed.

(** X20.  In the target line everything after the second blank is the
    location or the path, blanks included and possibly empty; the first
    word of the line is not looked at. *)
Theorem target_keeps_blanks (first text : string) :
  no_space first = true ->
  _process_target_choice (first ++ " NOMINATIM " ++ text)
  = inr (Some (ForwardGeocodingAPI text (_build_search_url text), true))
  /\ _process_target_choice (first ++ " FILE " ++ text)
     = inr (Some (ForwardGeocodingFile text, false)).
Proof.
  intros H. unfold _process_target_choice, index. split.
  - change (first ++ " NOMINATIM " ++ text)
      with (first ++ String " " ("NOMINATIM" ++ String " " text)).
    rewrite split_max_field by exact H.
    rewrite (split_max_field 0 "NOMINATIM" text) by reflexivity.
    rewrite split_max_zero. reflexivity.
  - change (first ++ " FILE " ++ text)
      with (first ++ String " " ("FILE" ++ String " " text)).
    rewrite split_max_field by exact H.
    rewrite (split_max_field 0 "FILE" text) by reflexivity.
    rewrite split_max_zero. reflexivity.
Qed.

Lemma target_keeps_blanks_witness :
  _process_target_choice ("TARGET" ++ " NOMINATIM " ++ "Bren Hall, Irvine, CA")
  = inr (Some (ForwardGeocodingAPI "Bren Hall, Irvine, CA"
                 (_build_search_url "Bren Hall, Irvine, CA"), true))
  /\ _process_target_choice ("TARGET" ++ " FILE " ++ "Bren Hall, Irvine, CA")
     = inr (Some (ForwardGeocodingFile "Bren Hall, Irvine, CA", false)).
Proof. apply (target_keeps_blanks "TARGET" "Bren Hall, Irvine, CA"). reflexivity. Defined.

(** X21.  In the weather line and in the reverse line the path of a file
    ends at the next blank: of a path with a blank only the part before it
    is kept, and what follows is dropped without an error. *)
Theorem file_path_cut_at_blank (first path rest : string) (location : Q * Q) :
  no_space first = true ->
  no_space path = true ->
  _process_weather_choice (first ++ " FILE " ++ path ++ " " ++ rest) location
  = inr (Some (WeatherForecastFile path, false))
  /\ _process_reverse_choice (first ++ " FILE " ++ path ++ " " ++ rest) location
     = inr (Some (ReverseGeocodingFile path, false)).
Proof.
  intros H Hp. unfold _process_weather_choice, _process_reverse_choice, index.
  assert (E : split " " (first ++ " FILE " ++ path ++ " " ++ rest)
              = first :: "FILE" :: path :: split " " rest).
  { change (first ++ " FILE " ++ path ++ " " ++ rest)
      with (first ++ String " " ("FILE" ++ String " " (path ++ String " " rest))).
    rewrite split_field by exact H.
    rewrite (split_field "FILE") by reflexivity.
    rewrite split_field by exact Hp. reflexivity. }
  rewrite E. split; reflexivity.
Qed.

Lemma file_path_cut_at_blank_witness :
  _process_weather_choice ("WEATHER" ++ " FILE " ++ "my" ++ " " ++ "forecast.json") (0, 0)
  = inr (Some (WeatherForecastFile "my", false))
  /\ _process_reverse_choice ("WEATHER" ++ " FILE " ++ "my" ++ " " ++ "forecast.json") (0, 0)
     = inr (Some (ReverseGeocodingFile "my", false)).
Proof.
  apply (file_path_cut_at_blank "WEATHER" "my" "forecast.json" (0, 0)); reflexivity.
Defined.

(** X22.  A target line of one word, or of a known keyword with nothing
    after it, fails with [IndexError]; a line whose second word is neither
    NOMINATIM nor FILE builds no source and returns [None], whatever
    follows the word. *)
Theorem target_choice_failures (first kind text : string) :
  no_space first = true ->
  no_space kind = true ->
  _process_target_choice first = inl IndexError
  /\ _process_target_choice (first ++ " NOMINATIM") = inl IndexError
  /\ _process_target_choice (first ++ " FILE") = inl IndexError
  /\ (kind <> "NOMINATIM" -> kind <> "FILE" ->
      _process_target_choice (first ++ " " ++ kind) = inr None
      /\ _process_target_choice (first ++ " " ++ kind ++ " " ++ text) = inr None).
Proof.
  intros H Hk. unfold _process_target_choice, index.
  split; [|split; [|split]].
  - rewrite split_max_no_space by exact H. reflexivity.
  - change (first ++ " NOMINATIM") with (first ++ String " " "NOMINATIM").
    rewrite split_max_field by exact H. reflexivity.
  - change (first ++ " FILE") with (first ++ String " " "FILE").
    rewrite split_max_field by exact H. reflexivity.
  - intros H1 H2. apply String.eqb_neq in H1, H2. split.
    + change (first ++ " " ++ kind) with (first ++ String " " kind).
      rewrite split_max_field by exact H. rewrite split_max_no_space by exact Hk.
      cbn [nth_error bind ret]. rewrite H1. cbn [bind ret]. rewrite H2. reflexivity.
    + change (first ++ " " ++ kind ++ " " ++ text)
        with (first ++ String " " (kind ++ String " " text)).
      rewrite split_max_field by exact H. rewrite split_max_field by exact Hk.
      rewrite split_max_zero.
      cbn [nth_error bind ret]. rewrite H1. cbn [bind ret]. rewrite H2. reflexivity.
Qed.

Lemma target_choice_failures_witness :
  _process_target_choice "TARGET" = inl IndexError
  /\ _process_target_choice ("TARGET" ++ " NOMINATIM") = inl IndexError
  /\ _process_target_choice ("TARGET" ++ " FILE") = inl IndexError
  /\ ("nominatim" <> "NOMINATIM" -> "nominatim" <> "FILE" ->
      _process_target_choice ("TARGET" ++ " " ++ "nominatim") = inr None
      /\ _process_target_choice ("TARGET" ++ " " ++ "nominatim" ++ " " ++ "Irvine, CA")
         = inr None).
Proof. apply (target_choice_failures "TARGET" "nominatim" "Irvine, CA"); reflexivity. Defined.

(** * The address of a search *)

Lemma quote_char_safe (c : ascii) (r : string) :
  forallb url_safe (list_ascii_of_string (quote_plus r)) = true ->
  forallb url_safe (list_ascii_of_string (quote_plus (String c r))) = true.
Proof.
  intros H.
  destruct c as [[] [] [] [] [] [] [] []];
    cbn [quote_plus Ascii.eqb Bool.eqb]; exact H || (cbn; exact H).
Qed.

Lemma quote_plus_safe (s : string) :
  forallb url_safe (list_ascii_of_string (quote_plus s)) = true.
Proof.
  induction s as [|c r IH]; [reflexivity|]. apply quote_char_safe. exact IH.
Qed.

Lemma split_sep_field (sep : ascii) (a b : string) :
  no_char sep a = true -> split sep (a ++ String sep b) = a :: split sep b.
Proof.
  induction a as [|c r IH]; intros H.
  - cbn [append split]. rewrite Ascii.eqb_refl. reflexivity.
  - cbn [no_char] in H. apply andb_true_iff in H. destruct H as [Hc Hr].
    apply negb_true_iff in Hc. cbn [append split]. rewrite Hc, (IH Hr). reflexivity.
Qed.

Lemma url_safe_not_separator (c : ascii) :
  url_safe c = true ->
  Ascii.eqb c "&" = false /\ Ascii.eqb c "=" = false /\ Ascii.eqb c " " = false
  /\ Ascii.eqb c "?" = false /\ Ascii.eqb c "#" = false /\ Ascii.eqb c "/" = false.
Proof.
  destruct c as [[] [] [] [] [] [] [] []]; intros H; try discriminate H;
    repeat split; reflexivity.
Qed.

Lemma safe_text_no_separator (s : string) :
  forallb url_safe (list_ascii_of_string s) = true ->
  no_char "&" s = true /\ no_char "=" s = true /\ no_char " " s = true
  /\ no_char "?" s = true /\ no_char "#" s = true /\ no_char "/" s = true.
Proof.
  induction s as [|c r IH]; intros H; [repeat split; reflexivity|].
  cbn [list_ascii_of_string forallb] in H. apply andb_true_iff in H. destruct H as [Hc Hr].
  destruct (url_safe_not_separator c Hc) as (E1 & E2 & E3 & E4 & E5 & E6).
  destruct (IH Hr) as (I1 & I2 & I3 & I4 & I5 & I6).
  cbn [no_char]. rewrite E1, E2, E3, E4, E5, E6, I1, I2, I3, I4, I5, I6.
  repeat split; reflexivity.
Qed.

(** X23.  Whatever the location is, its encoded form has letters, digits
    and [_.-~+%] only, so no blank and none of [& = ? # /]; and the part of
    the address after the question mark is two parameters, [q] with the
    encoded location and [format=jsonv2]. *)
Theorem search_url_parameters (location : string) :
  forallb url_safe (list_ascii_of_string (quote_plus location)) = true
  /\ no_char " " (quote_plus location) = true
  /\ no_char "&" (quote_plus location) = true
  /\ split "&" (query_of (_build_search_url location))
     = ["q=" ++ quote_plus location; "format=jsonv2"].
Proof.
  pose proof (quote_plus_safe location) as Hs.
  destruct (safe_text_no_separator _ Hs) as (H1 & _ & H3 & _).
  split; [exact Hs|]. split; [exact H3|]. split; [exact H1|].
  unfold _build_search_url, NOMINATIM_URL.
  cbn [append query_of Ascii.eqb Bool.eqb].
  change (String "q" (String "=" (quote_plus location ++ String "&" "format=jsonv2")))
    with (("q=" ++ quote_plus location) ++ String "&" "format=jsonv2").
  rewrite split_sep_field; [reflexivity|].
  cbn [append no_char Ascii.eqb Bool.eqb negb andb]. exact H1.
Qed.

Example search_url_run :
  _build_search_url "Bren Hall, Irvine, CA"
  = "https://nominatim.openstreetmap.org/search?q=Bren+Hall%2C+Irvine%2C+CA&format=jsonv2"
  /\ quote_plus "a&b=c?#/~_.-" = "a%26b%3Dc%3F%23%2F~_.-".
Proof. split; reflexivity. Qed.

Lemma unquote_quote_char (c : ascii) (r : string) :
  unquote_plus (quote_plus (String c r)) = String c (unquote_plus (quote_plus r)).
Proof. destruct c as [[] [] [] [] [] [] [] []]; reflexivity. Qed.

Lemma unquote_quote (s : string) : unquote_plus (quote_plus s) = s.
Proof.
  induction s as [|c r IH]; [reflexivity|].
  rewrite unquote_quote_char, IH. reflexivity.
Qed.

Lemma length_append (x t : string) :
  String.length (x ++ t) = (String.length x + String.length t)%nat.
Proof. induction x as [|c x IH]; cbn [append String.length]; [reflexivity|]. rewrite IH. reflexivity. Qed.

Lemma append_cancel_r (x y t : string) : x ++ t = y ++ t -> x = y.
Proof.
  revert y. induction x as [|c x IH]; intros y H.
  - destruct y as [|d y]; [reflexivity|]. exfalso.
    apply (f_equal String.length) in H. cbn [append String.length] in H.
    rewrite length_append in H. cbn [String.length] in H. lia.
  - destruct y as [|d y].
    + exfalso. apply (f_equal String.length) in H. cbn [append String.length] in H.
      rewrite length_append in H. cbn [String.length] in H. lia.
    + cbn [append] in H. inversion H. f_equal. apply IH. assumption.
Qed.

Lemma append_cancel_l (p x y : string) : p ++ x = p ++ y -> x = y.
Proof.
  induction p as [|c p IH]; cbn [append]; intros H; [exact H|].
  inversion H. apply IH. assumption.
Qed.

(** X24.  The encoding loses nothing: decoding the encoded location gives
    the location back, and two locations with the same search address are
    the same location. *)
Theorem search_url_injective (location1 location2 : string) :
  unquote_plus (quote_plus location1) = location1
  /\ (_build_search_url location1 = _build_search_url location2 ->
      location1 = location2).
Proof.
  split; [apply unquote_quote|].
  intros H.
  change (_build_search_url location1)
    with ("https://nominatim.openstreetmap.org/search?q="
          ++ (quote_plus location1 ++ "&format=jsonv2")) in H.
  change (_build_search_url location2)
    with ("https://nominatim.openstreetmap.org/search?q="
          ++ (quote_plus location2 ++ "&format=jsonv2")) in H.
  apply append_cancel_l in H. apply append_cancel_r in H.
  rewrite <- (unquote_quote location1), <- (unquote_quote location2), H. reflexivity.
Qed.

(** * Further properties of the values read *)

Lemma collect_ext (value1 value2 : period -> py Q) (ps : list period) :
  (forall p, In p ps -> value1 p = value2 p) ->
  collect value1 ps = collect value2 ps.
Proof.
  induction ps as [|p ps IH]; intros H; cbn [collect]; [reflexivity|].
  rewrite (H p (or_introl eq_refl)), IH by (intros q Hq; apply H; right; exact Hq).
  reflexivity.
Qed.

(** X25.  In mild or calm weather the feels-like query is the air
    temperature query: when every period of the window is below 68 degrees
    and either above 50 degrees or with a wind of at most 3 mph, the two
    give the same answer. *)
Theorem mild_weather_feels_like_air (float_pow : Q -> Q -> Q) (data : forecast)
    (scale : string) (length : Z) (limit : string) :
  (length <= _available_num_of_time_periods data)%Z ->
  (forall p, In p (window data length) ->
     exists w, _simplify_wind_speed (windSpeed p) = inr w
               /\ temperature p < 68
               /\ (50 < temperature p \/ w <= 3)) ->
  feels_like_temperature float_pow data scale length limit
  = air_temperature data scale length limit.
Proof.
  intros Hlen Hmild.
  change (metric_query float_pow (Feels scale) data length limit
          = metric_query float_pow (Air scale) data length limit).
  rewrite !metric_query_unfold, !metric_loop_scan by exact Hlen.
  rewrite (collect_ext (metric_value float_pow (Feels scale))
             (metric_value float_pow (Air scale))); [reflexivity|].
  intros p Hp. destruct (Hmild p Hp) as (w & Hw & H68 & Hband).
  cbn [metric_value]. unfold feels_like_curr_temp, air_curr_temp.
  rewrite Hw. cbn [bind ret]. unfold Qge_bool, Qgt_bool.
  assert (E68 : Qle_bool 68 (temperature p) = false).
  { destruct (Qle_bool 68 (temperature p)) eqn:E; [|reflexivity].
    apply Qle_bool_iff in E. lra. }
  rewrite E68.
  assert (Eband : Qle_bool (temperature p) 50 && Qlt_bool 3 w = false).
  { destruct Hband as [H50|H3].
    - destruct (Qle_bool (temperature p) 50) eqn:E; [|reflexivity].
      apply Qle_bool_iff in E. lra.
    - apply Qlt_bool_false in H3. rewrite H3. apply andb_false_r. }
  rewrite Eband. reflexivity.
Qed.

Lemma mild_weather_feels_like_air_witness :
  feels_like_temperature sample_pow
    (Forecast [Period "2023-01-01T00:00:00-08:00" 55 40 "12 mph" 10;
               Period "2023-01-01T01:00:00-08:00" 45 40 "3 mph" 10] [])
    "C" 2 "MIN"
  = air_temperature
      (Forecast [Period "2023-01-01T00:00:00-08:00" 55 40 "12 mph" 10;
                 Period "2023-01-01T01:00:00-08:00" 45 40 "3 mph" 10] [])
      "C" 2 "MIN".
Proof.
  apply (mild_weather_feels_like_air sample_pow _ "C" 2 "MIN").
  - vm_compute. discriminate.
  - intros p [<-|[<-|[]]].
    + exists 12. split; [reflexivity|]. split; [reflexivity|]. left. reflexivity.
    + exists 3. split; [reflexivity|]. split; [reflexivity|]. right. discriminate.
Defined.

Lemma float__error (x : scalar) (e : exn) : float_ x = inl e -> e = ValueError.
Proof. destruct x; cbn [float_]; [discriminate|apply float_of_string_error]. Qed.


